(** * panel_mosaic

    A shallow embedding of [src/panel_mosaic/panel_mosaic.py]: the class
    [PanelMosaic], the helper [_label_axes] and the free function
    [panel_mosaic].

    The program is a sequence of calls into matplotlib, skunk and cairosvg.
    The embedding keeps what Python itself does (attribute lookup and
    assignment, dict construction and subscript, [str] concatenation,
    [open], loops, exceptions that leave the mutated state behind) and
    records on the plotting objects what each library call sets on them.
    What the libraries compute (the labels a mosaic lays out, the rendering
    of a figure, the decoding of an image, the substitution of vector
    graphics, the conversion to PDF) is a parameter, [Libraries]. A library
    call is taken to return; the exceptions followed are the ones of the
    source's own operations: [AttributeError], [KeyError], [TypeError] and
    the [FileNotFoundError] of [open]. *)

From Stdlib Require Import String Ascii ZArith PrimFloat.
From stdpp Require Import base option list strings.

Set Warnings "-inexact-float,-clear-no-such-hyp".
Open Scope string_scope.
Open Scope list_scope.
Open Scope nat_scope.

(** ** Python: exceptions, dicts, strings *)

(** The exceptions the source can raise by itself. *)
Inductive exn :=
| AttributeError (name : string)
| KeyError (key : string)
| TypeError (msg : string)
| FileNotFoundError (path : string).

Inductive outcome (A : Type) :=
| Ok (a : A)
| Raise (e : exn).
Arguments Ok {A} a.
Arguments Raise {A} e.

(** A [dict] with [str] keys keeps its insertion order; iterating it
    ([items], [keys]) follows that order. *)
Abbreviation dict V := (list (string * V)).

Fixpoint dict_get {V} (k : string) (d : dict V) : option V :=
  match d with
  | [] => None
  | (k', v) :: d' => if String.eqb k k' then Some v else dict_get k d'
  end.

(** [d[k] = v]: an existing key keeps its place, a new one goes last. *)
Fixpoint dict_set {V} (k : string) (v : V) (d : dict V) : dict V :=
  match d with
  | [] => [(k, v)]
  | (k', v') :: d' =>
      if String.eqb k k' then (k, v) :: d' else (k', v') :: dict_set k v d'
  end.

Definition keys {V} (d : dict V) : list string := d.*1.

(** [d[k]] *)
Definition subscript {V} (d : dict V) (k : string) : outcome V :=
  match dict_get k d with
  | Some v => Ok v
  | None => Raise (KeyError k)
  end.

(** [s.endswith(suffix)] *)
Definition endswith (s suffix : string) : bool :=
  let n := String.length s in
  let m := String.length suffix in
  Nat.leb m n && String.eqb (substring (n - m) m s) suffix.

(** [x in t] for a tuple of strings *)
Definition py_in (x : string) (t : list string) : bool :=
  existsb (String.eqb x) t.

(** [Union[str, Path]] *)
Inductive pathlike :=
| PStr (s : string)
| PPath (p : string).

(** [str(p)] *)
Definition str (p : pathlike) : string :=
  match p with
  | PStr s => s
  | PPath s => s
  end.

(** [p + suffix]: [str.__add__]; a [Path] has no [__add__] and [str] no
    [__radd__]. *)
Definition add_str (p : pathlike) (suffix : string) : outcome string :=
  match p with
  | PStr s => Ok (s +:+ suffix)
  | PPath _ =>
      Raise (TypeError "unsupported operand type(s) for +: 'PosixPath' and 'str'")
  end.

(** ** matplotlib objects *)

Inductive Transform :=
| transData
| transAxes.

Record Text := {
  text_x : float;
  text_y : float;
  text_s : string;
  text_horizontalalignment : string;
  text_verticalalignment : string;
  text_transform : Transform;
  text_fontsize : Z;
  text_clip_on : bool;
}.

(** An image array, as [plt.imread] returns it. *)
Abbreviation Image := (list (list (list float))).

Record AxesImage := {
  im_data : Image;
  im_interpolation : string;
  im_aspect : option string;
}.

(** One [Axes] object: what the calls of the source set on it. Axes are
    shared between a figure and the [axs] dict, so they live in a store
    and are named by their index there. *)
Record Axes := {
  ax_autoscale_on : bool;
  ax_texts : list Text;
  ax_xticks : option (list float);
  ax_yticks : option (list float);
  ax_axison : bool;
  ax_images : list AxesImage;
  ax_child_axes : list nat;
  ax_artists : list string;
  ax_inset : option (list float);
  ax_zorder : Z;
}.

Definition new_axes : Axes :=
  {| ax_autoscale_on := true; ax_texts := []; ax_xticks := None;
     ax_yticks := None; ax_axison := true; ax_images := [];
     ax_child_axes := []; ax_artists := []; ax_inset := None;
     ax_zorder := 0 |}.

Record Figure := {
  fig_figsize : float * float;
  fig_layout : string;
  fig_gridspec_kw : dict float;
  fig_axes : list nat;
}.

(** What the program can reach outside its own object: pyplot's
    interactive flag and figures, the store of axes, and the files. Opening
    a file for writing creates it: the file store is flat. *)
Record World := {
  interactive : bool;
  figures : list Figure;
  axes : list Axes;
  files : dict string;
}.

(** A mosaic, [Union[str, list[list]]]. Labels are [str]: [_label_axes]
    concatenates each with [""]. *)
Inductive Mosaic :=
| MosaicStr (s : string)
| MosaicList (rows : list (list string)).

(** What the libraries compute. [plt_mosaic_labels] gives the labels
    [plt.subplot_mosaic] makes an axes for; [skunk_pltsvg] and
    [skunk_insert] render from the state of pyplot and the files. *)
Record Libraries := {
  plt_mosaic_labels : Mosaic → list string;
  plt_imread : string → Image;
  skunk_pltsvg : World → nat → string;
  skunk_insert : dict string → World → string;
  cairosvg_svg2pdf : string → string;
}.

(** ** The instance *)

(** The attributes of a [PanelMosaic] instance; [None] is an attribute
    that was never assigned. [panel_mapping] holds Python's [None] after
    [__init__]. *)
Record PanelMosaic := {
  mosaic : option Mosaic;
  figsize : option (float * float);
  layout : option string;
  gridspec_kw : option (dict float);
  fig : option nat;
  axs : option (dict nat);
  panel_mapping : option (option (dict string));
  svg : option string;
  png_panel_mapping : option (dict string);
  svg_panel_mapping : option (dict string);
}.

Definition blank : PanelMosaic :=
  {| mosaic := None; figsize := None; layout := None; gridspec_kw := None;
     fig := None; axs := None; panel_mapping := None; svg := None;
     png_panel_mapping := None; svg_panel_mapping := None |}.

Record State := {
  self : PanelMosaic;
  world : World;
}.

Inductive value :=
| VNone
| VStr (s : string)
| VPanelMosaic (o : PanelMosaic).

(** ** Computations

    A statement runs on the instance and the world and either returns or
    raises; what it changed before raising stays changed. The source has no
    [try]: nothing here catches. *)
Definition M (A : Type) : Type := State → outcome A * State.

Definition ret {A} (a : A) : M A := λ st, (Ok a, st).

Definition bind {A B} (m : M A) (k : A → M B) : M B :=
  λ st, match m st with
        | (Ok a, st') => k a st'
        | (Raise e, st') => (Raise e, st')
        end.

Definition lift {A} (o : outcome A) : M A := λ st, (o, st).

Declare Scope py_scope.
Delimit Scope py_scope with py.
Notation "x <- m ;; k" := (bind m (λ x, k))
  (at level 100, m at next level, right associativity) : py_scope.
Notation "m ;; k" := (bind m (λ _, k))
  (at level 100, k at level 200, right associativity) : py_scope.
Open Scope py_scope.

(** [for x in l: body] *)
Fixpoint for_ {A} (l : list A) (body : A → M unit) : M unit :=
  match l with
  | [] => ret tt
  | x :: l' => body x ;; for_ l' body
  end.

(** [self.name] and [self.name = v] *)
Definition getattr {A} (name : string) (proj : PanelMosaic → option A) : M A :=
  λ st, match proj (self st) with
        | Some a => (Ok a, st)
        | None => (Raise (AttributeError name), st)
        end.

Definition setattr (upd : PanelMosaic → PanelMosaic) : M unit :=
  λ st, (Ok tt, {| self := upd (self st); world := world st |}).

Definition get_self : M PanelMosaic := λ st, (Ok (self st), st).
Definition get_world : M World := λ st, (Ok (world st), st).

Definition modify_world (f : World → World) : M unit :=
  λ st, (Ok tt, {| self := self st; world := f (world st) |}).

Definition set_mosaic (v : Mosaic) (o : PanelMosaic) : PanelMosaic :=
  {| mosaic := Some v; figsize := figsize o; layout := layout o;
     gridspec_kw := gridspec_kw o; fig := fig o; axs := axs o;
     panel_mapping := panel_mapping o; svg := svg o;
     png_panel_mapping := png_panel_mapping o;
     svg_panel_mapping := svg_panel_mapping o |}.

Definition set_figsize (v : float * float) (o : PanelMosaic) : PanelMosaic :=
  {| mosaic := mosaic o; figsize := Some v; layout := layout o;
     gridspec_kw := gridspec_kw o; fig := fig o; axs := axs o;
     panel_mapping := panel_mapping o; svg := svg o;
     png_panel_mapping := png_panel_mapping o;
     svg_panel_mapping := svg_panel_mapping o |}.

Definition set_layout (v : string) (o : PanelMosaic) : PanelMosaic :=
  {| mosaic := mosaic o; figsize := figsize o; layout := Some v;
     gridspec_kw := gridspec_kw o; fig := fig o; axs := axs o;
     panel_mapping := panel_mapping o; svg := svg o;
     png_panel_mapping := png_panel_mapping o;
     svg_panel_mapping := svg_panel_mapping o |}.

Definition set_gridspec_kw (v : dict float) (o : PanelMosaic) : PanelMosaic :=
  {| mosaic := mosaic o; figsize := figsize o; layout := layout o;
     gridspec_kw := Some v; fig := fig o; axs := axs o;
     panel_mapping := panel_mapping o; svg := svg o;
     png_panel_mapping := png_panel_mapping o;
     svg_panel_mapping := svg_panel_mapping o |}.

Definition set_fig_axs (f : nat) (a : dict nat) (o : PanelMosaic) : PanelMosaic :=
  {| mosaic := mosaic o; figsize := figsize o; layout := layout o;
     gridspec_kw := gridspec_kw o; fig := Some f; axs := Some a;
     panel_mapping := panel_mapping o; svg := svg o;
     png_panel_mapping := png_panel_mapping o;
     svg_panel_mapping := svg_panel_mapping o |}.

Definition set_panel_mapping (v : option (dict string)) (o : PanelMosaic) : PanelMosaic :=
  {| mosaic := mosaic o; figsize := figsize o; layout := layout o;
     gridspec_kw := gridspec_kw o; fig := fig o; axs := axs o;
     panel_mapping := Some v; svg := svg o;
     png_panel_mapping := png_panel_mapping o;
     svg_panel_mapping := svg_panel_mapping o |}.

Definition set_svg (v : string) (o : PanelMosaic) : PanelMosaic :=
  {| mosaic := mosaic o; figsize := figsize o; layout := layout o;
     gridspec_kw := gridspec_kw o; fig := fig o; axs := axs o;
     panel_mapping := panel_mapping o; svg := Some v;
     png_panel_mapping := png_panel_mapping o;
     svg_panel_mapping := svg_panel_mapping o |}.

Definition set_png_panel_mapping (v : dict string) (o : PanelMosaic) : PanelMosaic :=
  {| mosaic := mosaic o; figsize := figsize o; layout := layout o;
     gridspec_kw := gridspec_kw o; fig := fig o; axs := axs o;
     panel_mapping := panel_mapping o; svg := svg o;
     png_panel_mapping := Some v;
     svg_panel_mapping := svg_panel_mapping o |}.

Definition set_svg_panel_mapping (v : dict string) (o : PanelMosaic) : PanelMosaic :=
  {| mosaic := mosaic o; figsize := figsize o; layout := layout o;
     gridspec_kw := gridspec_kw o; fig := fig o; axs := axs o;
     panel_mapping := panel_mapping o; svg := svg o;
     png_panel_mapping := png_panel_mapping o;
     svg_panel_mapping := Some v |}.

(** ** The world: pyplot, axes, files *)

Definition set_interactive (b : bool) (w : World) : World :=
  {| interactive := b; figures := figures w; axes := axes w; files := files w |}.

Definition set_axes (l : list Axes) (w : World) : World :=
  {| interactive := interactive w; figures := figures w; axes := l;
     files := files w |}.

Definition set_files (d : dict string) (w : World) : World :=
  {| interactive := interactive w; figures := figures w; axes := axes w;
     files := d |}.

(** [plt.ioff()], [plt.ion()] *)
Definition plt_ioff : M unit := modify_world (set_interactive false).
Definition plt_ion : M unit := modify_world (set_interactive true).

(** [open(path, "rb")], read by the library that is handed the file. *)
Definition open_rb (path : string) : M string :=
  λ st, match dict_get path (files (world st)) with
        | Some data => (Ok data, st)
        | None => (Raise (FileNotFoundError path), st)
        end.

(** [open(path, "w")] creates or truncates the file. *)
Definition open_w (path : string) : M unit :=
  modify_world (λ w, set_files (dict_set path "" (files w)) w).

(** [f.write(s)] on the file opened at [path] *)
Definition file_write (path s : string) : M unit :=
  modify_world (λ w,
    set_files (dict_set path (default "" (dict_get path (files w)) +:+ s) (files w)) w).

(** A method call on the axes at [ax]. *)
Definition update_axes (ax : nat) (f : Axes → Axes) : M unit :=
  modify_world (λ w, set_axes (alter f ax (axes w)) w).

(** [ax.autoscale(enable)] *)
Definition Axes_autoscale (ax : nat) (enable : bool) : M unit :=
  update_axes ax (λ a,
    {| ax_autoscale_on := enable; ax_texts := ax_texts a;
       ax_xticks := ax_xticks a; ax_yticks := ax_yticks a;
       ax_axison := ax_axison a; ax_images := ax_images a;
       ax_child_axes := ax_child_axes a; ax_artists := ax_artists a;
       ax_inset := ax_inset a; ax_zorder := ax_zorder a |}).

(** [ax.text(x, y, s, ...)] *)
Definition Axes_text (ax : nat) (t : Text) : M unit :=
  update_axes ax (λ a,
    {| ax_autoscale_on := ax_autoscale_on a; ax_texts := ax_texts a ++ [t];
       ax_xticks := ax_xticks a; ax_yticks := ax_yticks a;
       ax_axison := ax_axison a; ax_images := ax_images a;
       ax_child_axes := ax_child_axes a; ax_artists := ax_artists a;
       ax_inset := ax_inset a; ax_zorder := ax_zorder a |}).

(** [ax.set(xticks=..., yticks=...)] *)
Definition Axes_set (ax : nat) (xticks yticks : list float) : M unit :=
  update_axes ax (λ a,
    {| ax_autoscale_on := ax_autoscale_on a; ax_texts := ax_texts a;
       ax_xticks := Some xticks; ax_yticks := Some yticks;
       ax_axison := ax_axison a; ax_images := ax_images a;
       ax_child_axes := ax_child_axes a; ax_artists := ax_artists a;
       ax_inset := ax_inset a; ax_zorder := ax_zorder a |}).

Definition axis_off (a : Axes) : Axes :=
  {| ax_autoscale_on := ax_autoscale_on a; ax_texts := ax_texts a;
     ax_xticks := ax_xticks a; ax_yticks := ax_yticks a;
     ax_axison := false; ax_images := ax_images a;
     ax_child_axes := ax_child_axes a; ax_artists := ax_artists a;
     ax_inset := ax_inset a; ax_zorder := ax_zorder a |}.

(** [ax.axis("off")] *)
Definition Axes_axis_off (ax : nat) : M unit := update_axes ax axis_off.

Definition add_child (child : nat) (a : Axes) : Axes :=
  {| ax_autoscale_on := ax_autoscale_on a; ax_texts := ax_texts a;
     ax_xticks := ax_xticks a; ax_yticks := ax_yticks a;
     ax_axison := ax_axison a; ax_images := ax_images a;
     ax_child_axes := ax_child_axes a ++ [child]; ax_artists := ax_artists a;
     ax_inset := ax_inset a; ax_zorder := ax_zorder a |}.

Definition inset (bounds : list float) (zorder : Z) : Axes :=
  {| ax_autoscale_on := true; ax_texts := []; ax_xticks := None;
     ax_yticks := None; ax_axison := true; ax_images := [];
     ax_child_axes := []; ax_artists := []; ax_inset := Some bounds;
     ax_zorder := zorder |}.

(** [ax.inset_axes(bounds, zorder=...)]: a new axes, child of [ax]. *)
Definition Axes_inset_axes (ax : nat) (bounds : list float) (zorder : Z) : M nat :=
  w <- get_world ;;
  let child := length (axes w) in
  modify_world (λ w,
    set_axes (alter (add_child child) ax (axes w) ++ [inset bounds zorder]) w) ;;
  ret child.

(** [ax.imshow(img, interpolation=..., aspect=...)] *)
Definition Axes_imshow (ax : nat) (im : AxesImage) : M unit :=
  update_axes ax (λ a,
    {| ax_autoscale_on := ax_autoscale_on a; ax_texts := ax_texts a;
       ax_xticks := ax_xticks a; ax_yticks := ax_yticks a;
       ax_axison := ax_axison a; ax_images := ax_images a ++ [im];
       ax_child_axes := ax_child_axes a; ax_artists := ax_artists a;
       ax_inset := ax_inset a; ax_zorder := ax_zorder a |}).

Definition add_artist (gid : string) (a : Axes) : Axes :=
  {| ax_autoscale_on := ax_autoscale_on a; ax_texts := ax_texts a;
     ax_xticks := ax_xticks a; ax_yticks := ax_yticks a;
     ax_axison := ax_axison a; ax_images := ax_images a;
     ax_child_axes := ax_child_axes a; ax_artists := ax_artists a ++ [gid];
     ax_inset := ax_inset a; ax_zorder := ax_zorder a |}.

(** [skunk.connect(ax, gid)]: a placeholder artist with id [gid] on [ax]. *)
Definition skunk_connect (ax : nat) (gid : string) : M unit :=
  update_axes ax (add_artist gid).

(** [plt.subplot_mosaic(mosaic=..., figsize=..., layout=..., gridspec_kw=...)]:
    a new figure with one new axes per label of the mosaic, and the dict
    from label to axes. *)
Definition plt_subplot_mosaic (lib : Libraries) (mosaic : Mosaic)
    (figsize : float * float) (layout : string) (gridspec_kw : dict float)
    : M (nat * dict nat) :=
  w <- get_world ;;
  let labels := remove_dups (plt_mosaic_labels lib mosaic) in
  let refs := seq (length (axes w)) (length labels) in
  modify_world (λ w,
    {| interactive := interactive w;
       figures := figures w ++
         [{| fig_figsize := figsize; fig_layout := layout;
             fig_gridspec_kw := gridspec_kw; fig_axes := refs |}];
       axes := axes w ++ replicate (length labels) new_axes;
       files := files w |}) ;;
  ret (length (figures w), zip labels refs).

(** [cairosvg.svg2pdf(bytestring=..., write_to=...)] *)
Definition svg2pdf (lib : Libraries) (bytestring write_to : string) : M unit :=
  modify_world (λ w,
    set_files (dict_set write_to (cairosvg_svg2pdf lib bytestring) (files w)) w).

(** ** The program *)

(** [_label_axes(axs, fontsize, label_pos, horizontalalignment,
    verticalalignment)] *)
Definition _label_axes (axs : dict nat) (fontsize : Z) (label_pos : float * float)
    (horizontalalignment verticalalignment : string) : M unit :=
  for_ axs (λ '(label, ax),
    Axes_autoscale ax false ;;
    Axes_text ax
      {| text_x := label_pos.1; text_y := label_pos.2;
         text_s := label +:+ "";
         text_horizontalalignment := horizontalalignment;
         text_verticalalignment := verticalalignment;
         text_transform := transAxes;
         text_fontsize := fontsize;
         text_clip_on := false |} ;;
    Axes_set ax [] []).

(** The two filters of [map]: the entries of [panel_mapping] whose path
    ends with [suffix], built entry by entry into a new dict. [keep] is one
    turn of the loop. *)
Definition keep (suffix : string) (acc : dict string) (e : string * string)
    : dict string :=
  let '(label, path) := e in
  if endswith path suffix then dict_set label path acc else acc.

Definition by_suffix (suffix : string) (panel_mapping : dict string) : dict string :=
  fold_left (keep suffix) panel_mapping [].

Module PanelMosaic.

Definition _set_up_axes (lib : Libraries) : M (nat * dict nat) :=
  plt_ioff ;;
  mosaic <- getattr "mosaic" mosaic ;;
  figsize <- getattr "figsize" figsize ;;
  layout <- getattr "layout" layout ;;
  gridspec_kw <- getattr "gridspec_kw" gridspec_kw ;;
  fig_axs <- plt_subplot_mosaic lib mosaic figsize layout gridspec_kw ;;
  plt_ion ;;
  ret fig_axs.

Definition __init__ (lib : Libraries) (mosaic : Mosaic) (figsize : float * float)
    (layout : string) (gridspec_kw : option (dict float)) : M unit :=
  setattr (set_mosaic mosaic) ;;
  setattr (set_figsize figsize) ;;
  setattr (set_layout layout) ;;
  match gridspec_kw with
  | None => setattr (set_gridspec_kw [("hspace", 0.0%float); ("wspace", 0.0%float)])
  | Some _ => ret tt
  end ;;
  fig_axs <- _set_up_axes lib ;;
  setattr (set_fig_axs fig_axs.1 fig_axs.2) ;;
  setattr (set_panel_mapping None) ;;
  fig <- getattr "fig" fig ;;
  w <- get_world ;;
  setattr (set_svg (skunk_pltsvg lib w fig)).

(** [PanelMosaic(mosaic, figsize, layout, gridspec_kw)]: a new instance,
    initialised. *)
Definition new (lib : Libraries) (mosaic : Mosaic) (figsize : float * float)
    (layout : string) (gridspec_kw : option (dict float)) : M unit :=
  setattr (λ _, blank) ;;
  __init__ lib mosaic figsize layout gridspec_kw.

Definition label_axes (fontsize : Z) (label_pos : float * float)
    (horizontalalignment verticalalignment : string) : M unit :=
  axs <- getattr "axs" axs ;;
  _label_axes axs fontsize label_pos horizontalalignment verticalalignment.

Definition format_axes (panel_borders : bool) : M unit :=
  axs <- getattr "axs" axs ;;
  for_ axs (λ '(_, ax),
    if negb panel_borders then Axes_axis_off ax else ret tt).

(** The body of [for label, path in png_panel_mapping.items()]. *)
Definition draw_png (lib : Libraries) (entry : string * string) : M unit :=
  let '(label, path) := entry in
  f <- open_rb path ;;
  let img := plt_imread lib f in
  axs <- getattr "axs" axs ;;
  ax <- lift (subscript axs label) ;;
  new_ax <- Axes_inset_axes ax [0.01; 0.01; 0.98; 0.98]%float (-1) ;;
  Axes_imshow new_ax
    {| im_data := img; im_interpolation := "none"; im_aspect := None |} ;;
  Axes_axis_off new_ax.

(** The body of [for label in svg_panel_mapping.keys()]. *)
Definition connect_svg (label : string) : M unit :=
  axs <- getattr "axs" axs ;;
  ax <- lift (subscript axs label) ;;
  skunk_connect ax label.

Definition map (lib : Libraries) (panel_mapping : dict string) : M unit :=
  setattr (set_panel_mapping (Some panel_mapping)) ;;
  let png_panel_mapping := by_suffix ".png" panel_mapping in
  setattr (set_png_panel_mapping png_panel_mapping) ;;
  for_ png_panel_mapping (draw_png lib) ;;
  let svg_panel_mapping := by_suffix ".svg" panel_mapping in
  setattr (set_svg_panel_mapping svg_panel_mapping) ;;
  for_ (keys svg_panel_mapping) connect_svg ;;
  w <- get_world ;;
  setattr (set_svg (skunk_insert lib svg_panel_mapping w)).

Definition write_svg (out_path : pathlike) : M unit :=
  path <- lift (add_str out_path ".svg") ;;
  open_w path ;;
  svg <- getattr "svg" svg ;;
  file_write path svg.

Definition write_pdf (lib : Libraries) (out_path : pathlike) : M unit :=
  svg <- getattr "svg" svg ;;
  svg2pdf lib svg (str out_path +:+ ".pdf").

Definition write (lib : Libraries) (out_path : pathlike) (formats : list string)
    : M unit :=
  (if py_in "svg" formats then write_svg out_path else ret tt) ;;
  (if py_in "pdf" formats then write_pdf lib out_path else ret tt).

End PanelMosaic.

(** [panel_mosaic(mosaic, panel_mapping, figsize, fontsize, panel_borders,
    layout, label_pos)]; the source's last statement is [return pm]. *)
Definition panel_mosaic (lib : Libraries) (mosaic : Mosaic)
    (panel_mapping : dict string) (figsize : float * float) (fontsize : Z)
    (panel_borders : bool) (layout : string) (label_pos : float * float)
    : M value :=
  PanelMosaic.new lib mosaic figsize layout None ;;
  PanelMosaic.label_axes fontsize label_pos "left" "top" ;;
  PanelMosaic.format_axes panel_borders ;;
  PanelMosaic.map lib panel_mapping ;;
  pm <- get_self ;;
  ret (VPanelMosaic pm).

(** ** Instances the methods are called on *)

(** The panels of the instance: the [axs] dict. *)
Definition panels (st : State) : dict nat := default [] (axs (self st)).

(** What [__init__] leaves: [axs] and [svg] are assigned, [axs] names
    distinct panels, each with an axes of its own in the store. *)
Definition constructed (st : State) : Prop :=
  match axs (self st), svg (self st) with
  | Some a, Some _ =>
      NoDup (keys a) ∧ NoDup a.*2 ∧
      Forall (λ ax, ax < length (axes (world st))) a.*2
  | _, _ => False
  end.

(** A mapping a caller can pass is a dict: its keys are distinct. *)
Definition is_dict {V} (d : dict V) : Prop := NoDup (keys d).

(** The paths [map] does something with. *)
Definition known_suffix (path : string) : bool :=
  endswith path ".png" || endswith path ".svg".

(** The axes [map] leaves for a [.png] entry: the inset of
    [inset_axes([0.01, 0.01, 0.98, 0.98], zorder=-1)] after
    [imshow(img, interpolation="none", aspect=None)] and [axis("off")]. *)
Definition png_inset (img : Image) : Axes :=
  {| ax_autoscale_on := true; ax_texts := []; ax_xticks := None;
     ax_yticks := None; ax_axison := false;
     ax_images :=
       [{| im_data := img; im_interpolation := "none"; im_aspect := None |}];
     ax_child_axes := []; ax_artists := [];
     ax_inset := Some [0.01; 0.01; 0.98; 0.98]%float;
     ax_zorder := (-1) |}.

(** What [_label_axes] does to one axes, for the label [label]. *)
Definition labelled (label : string) (fontsize : Z) (label_pos : float * float)
    (horizontalalignment verticalalignment : string) (a : Axes) : Axes :=
  {| ax_autoscale_on := false;
     ax_texts := ax_texts a ++
       [{| text_x := label_pos.1; text_y := label_pos.2; text_s := label;
           text_horizontalalignment := horizontalalignment;
           text_verticalalignment := verticalalignment;
           text_transform := transAxes; text_fontsize := fontsize;
           text_clip_on := false |}];
     ax_xticks := Some []; ax_yticks := Some [];
     ax_axison := ax_axison a; ax_images := ax_images a;
     ax_child_axes := ax_child_axes a; ax_artists := ax_artists a;
     ax_inset := ax_inset a; ax_zorder := ax_zorder a |}.

(** The state after a method call on the axes at [ax]. *)
Definition altered (f : Axes → Axes) (ax : nat) (st : State) : State :=
  {| self := self st;
     world := set_axes (alter f ax (axes (world st))) (world st) |}.

(** In [s], the panel [label] of the instance of [st0] holds the image at
    [path]: its axes has a child made since [st0], and that child is the
    inset showing what [plt.imread] decodes from the file. *)
Definition drawn (lib : Libraries) (st0 s : State) (label path : string) : Prop :=
  ∃ ax data child a',
    dict_get label (panels st0) = Some ax ∧
    dict_get path (files (world st0)) = Some data ∧
    axes (world s) !! ax = Some a' ∧
    child ∈ ax_child_axes a' ∧
    length (axes (world st0)) ≤ child ∧
    axes (world s) !! child = Some (png_inset (plt_imread lib data)).

(** In [s], the axes of the panel [label] carries the placeholder that
    [skunk.connect] made for it. *)
Definition connected (st0 s : State) (label : string) : Prop :=
  ∃ ax a',
    dict_get label (panels st0) = Some ax ∧
    axes (world s) !! ax = Some a' ∧
    label ∈ ax_artists a'.

(** The instance with [panel_mapping] set, nothing else touched. *)
Definition with_panel_mapping (v : option (dict string)) (st : State) : State :=
  {| self := set_panel_mapping v (self st); world := world st |}.

(** A computation that neither reads nor writes [self.panel_mapping]. *)
Definition oblivious {A} (m : M A) : Prop :=
  ∀ v st, m (with_panel_mapping v st) = ((m st).1, with_panel_mapping v (m st).2).

#[global] Instance constructed_dec (st : State) : Decision (constructed st).
Proof.
  unfold constructed. destruct (axs (self st)), (svg (self st)); apply _.
Defined.

#[global] Instance is_dict_dec {V} (d : dict V) : Decision (is_dict d).
Proof. unfold is_dict. apply _. Defined.

(** Closed decidable side conditions, by evaluation. *)
Ltac by_evaluation := apply (bool_decide_unpack _); vm_compute; exact I.

(** ** A library and a world to run the program in *)

Module Demo.

Definition lib : Libraries :=
  {| plt_mosaic_labels := λ m,
       match m with
       | MosaicStr s => (λ c, String c "") <$> list_ascii_of_string s
       | MosaicList rows => concat rows
       end;
     plt_imread := λ data, [];
     skunk_pltsvg := λ w f, "<svg/>";
     skunk_insert := λ repl w, "<svg>" +:+ String.concat "," (keys repl) +:+ "</svg>";
     cairosvg_svg2pdf := λ s, "%PDF " +:+ s |}.

Definition w0 : World :=
  {| interactive := true; figures := []; axes := [];
     files := [("a.png", "PNG")] |}.

(** The state after [PanelMosaic("AB")]. *)
Definition st_AB : State :=
  (PanelMosaic.new lib (MosaicStr "AB") (10, 8)%float "tight" None
     {| self := blank; world := w0 |}).2.

End Demo.

(** * Proofs *)

(** ** Strings and dicts *)

Lemma append_empty_r (s : string) : s +:+ "" = s.
Proof.
  induction s as [|c s IH]; [done |].
  change (String c (s +:+ "") = String c s). by rewrite IH.
Qed.

Lemma dict_get_elem {V} (k : string) (v : V) (d : dict V) :
  dict_get k d = Some v → (k, v) ∈ d.
Proof.
  induction d as [|[k' v'] d IH]; simpl; [done |].
  destruct (String.eqb_spec k k') as [->|Hne].
  - intros [= ->]. left.
  - intros H. right. by apply IH.
Qed.

Lemma dict_get_None {V} (k : string) (d : dict V) :
  dict_get k d = None ↔ k ∉ keys d.
Proof.
  unfold keys. induction d as [|[k' v'] d IH]; simpl.
  - split; [intros _; apply not_elem_of_nil | done].
  - destruct (String.eqb_spec k k') as [->|Hne].
    + split; [done | intros H; destruct H; left].
    + rewrite IH, not_elem_of_cons. tauto.
Qed.

Lemma dict_get_is_Some {V} (k : string) (d : dict V) :
  is_Some (dict_get k d) ↔ k ∈ keys d.
Proof.
  destruct (dict_get k d) eqn:E.
  - split; [intros _ | by eauto].
    apply dict_get_elem in E. unfold keys. by apply (list_elem_of_fmap_2 fst) in E.
  - apply dict_get_None in E. split; [by intros [? ?] | done].
Qed.

Lemma elem_dict_get {V} (k : string) (v : V) (d : dict V) :
  is_dict d → (k, v) ∈ d → dict_get k d = Some v.
Proof.
  unfold is_dict, keys. induction d as [|[k' v'] d IH]; simpl.
  - intros _ H. by apply elem_of_nil in H.
  - intros Hnd H. apply NoDup_cons in Hnd as [Hk Hnd].
    apply elem_of_cons in H as [[= -> ->]|H].
    + by rewrite String.eqb_refl.
    + destruct (String.eqb_spec k k') as [->|Hne]; [| by apply IH].
      destruct Hk. by apply (list_elem_of_fmap_2 fst) in H.
Qed.

Lemma dict_set_fresh {V} (k : string) (v : V) (d : dict V) :
  k ∉ keys d → dict_set k v d = (d ++ [(k, v)])%list.
Proof.
  unfold keys. induction d as [|[k' v'] d IH]; simpl; [done |].
  rewrite not_elem_of_cons. intros [Hne Hk].
  destruct (String.eqb_spec k k'); [done |]. by rewrite IH.
Qed.

Lemma keys_dict_set {V} (k k0 : string) (v : V) (d : dict V) :
  k ∈ keys (dict_set k0 v d) ↔ k = k0 ∨ k ∈ keys d.
Proof.
  unfold keys. induction d as [|[k' v'] d IH]; simpl.
  - rewrite list_elem_of_singleton. split; [by left | intros [?|H]; [done | by apply elem_of_nil in H]].
  - destruct (String.eqb_spec k0 k') as [->|Hne]; simpl.
    + rewrite !elem_of_cons. naive_solver.
    + rewrite !elem_of_cons, IH. naive_solver.
Qed.

Lemma elem_dict_set {V} (k k0 : string) (v v0 : V) (d : dict V) :
  (k, v) ∈ dict_set k0 v0 d → (k, v) = (k0, v0) ∨ (k, v) ∈ d.
Proof.
  induction d as [|[k' v'] d IH]; simpl.
  - rewrite list_elem_of_singleton. by left.
  - destruct (String.eqb_spec k0 k') as [->|Hne]; rewrite !elem_of_cons; naive_solver.
Qed.

(** ** The filters of [map] *)

Lemma fold_keep_elem suffix (pm acc : dict string) label path :
  (label, path) ∈ fold_left (keep suffix) pm acc →
  (label, path) ∈ acc ∨ (endswith path suffix = true ∧ (label, path) ∈ pm).
Proof.
  revert acc. induction pm as [|[l p] pm IH]; simpl; intros acc H; [by left |].
  apply IH in H as [H|[? ?]]; [| right; split; [done | by right]].
  destruct (endswith p suffix) eqn:E; [| by left].
  apply elem_dict_set in H as [[= -> ->]|H]; [right; split; [done | left] | by left].
Qed.

Lemma by_suffix_elem suffix (pm : dict string) label path :
  (label, path) ∈ by_suffix suffix pm →
  endswith path suffix = true ∧ (label, path) ∈ pm.
Proof.
  unfold by_suffix. intros H.
  apply fold_keep_elem in H as [H|H]; [by apply elem_of_nil in H | done].
Qed.

Lemma by_suffix_keys suffix (pm : dict string) label :
  label ∈ keys (by_suffix suffix pm) →
  ∃ path, endswith path suffix = true ∧ (label, path) ∈ pm.
Proof.
  unfold keys. intros H. apply list_elem_of_fmap_1 in H as [[l p] [-> H]].
  exists p. by apply by_suffix_elem.
Qed.

(** On a dict the filter keeps the entries in their order. *)
Lemma fold_keep_filter suffix (pm acc : dict string) :
  NoDup (keys (acc ++ pm)) →
  fold_left (keep suffix) pm acc =
  (acc ++ filter (λ e, endswith e.2 suffix = true) pm)%list.
Proof.
  unfold keys. revert acc. induction pm as [|[l p] pm IH]; simpl; intros acc Hnd.
  - by rewrite app_nil_r.
  - rewrite filter_cons. simpl. destruct (endswith p suffix) eqn:E.
    + rewrite decide_True by done.
      assert (l ∉ keys acc) as Hl.
      { unfold keys. rewrite fmap_app in Hnd. apply NoDup_app in Hnd as (_ & Hd & _).
        intros Hin. apply (Hd l Hin). simpl. left. }
      rewrite (dict_set_fresh _ _ _ Hl), IH.
      * by rewrite <- app_assoc.
      * by rewrite <- app_assoc.
    + rewrite decide_False by done. rewrite IH; [done |].
      rewrite fmap_app in Hnd |- *. simpl in Hnd.
      apply NoDup_app in Hnd as (Ha & Hd & Hp). apply NoDup_cons in Hp as [_ Hp].
      apply NoDup_app. split_and!; [done | | done].
      intros x Hx Hx'. apply (Hd x Hx). by right.
Qed.

Lemma by_suffix_dict suffix (pm : dict string) :
  is_dict pm →
  by_suffix suffix pm = filter (λ e, endswith e.2 suffix = true) pm.
Proof. intros H. unfold by_suffix. by rewrite fold_keep_filter. Qed.

Lemma by_suffix_elem_dict suffix (pm : dict string) label path :
  is_dict pm → (label, path) ∈ pm → endswith path suffix = true →
  (label, path) ∈ by_suffix suffix pm.
Proof.
  intros Hd Hin E. rewrite by_suffix_dict by done.
  apply list_elem_of_filter. by split.
Qed.

Lemma by_suffix_is_dict suffix (pm : dict string) :
  is_dict pm → is_dict (by_suffix suffix pm).
Proof.
  intros Hd. rewrite by_suffix_dict by done. unfold is_dict, keys in *.
  induction pm as [|[l p] pm IH]; simpl; [constructor |].
  apply NoDup_cons in Hd as [Hl Hd]. rewrite filter_cons. simpl.
  destruct (decide (endswith p suffix = true)); [| by apply IH].
  simpl. apply NoDup_cons. split; [| by apply IH].
  intros Hin. apply Hl. apply list_elem_of_fmap_1 in Hin as [[l' p'] [-> Hin]].
  apply list_elem_of_filter in Hin as [_ Hin]. by apply (list_elem_of_fmap_2 fst) in Hin.
Qed.

(** Entries whose path ends with neither suffix leave both filters as
    they are. *)
Lemma fold_keep_known suffix (pm acc : dict string) :
  (∀ path, endswith path suffix = true → known_suffix path = true) →
  fold_left (keep suffix) pm acc =
  fold_left (keep suffix) (filter (λ e, known_suffix e.2 = true) pm) acc.
Proof.
  intros Hk. revert acc. induction pm as [|[l p] pm IH]; simpl; intros acc; [done |].
  rewrite filter_cons. simpl. destruct (decide (known_suffix p = true)) as [E|E].
  - simpl. apply IH.
  - destruct (endswith p suffix) eqn:E'; [by apply Hk in E' | apply IH].
Qed.

Lemma by_suffix_known suffix (pm : dict string) :
  suffix = ".png" ∨ suffix = ".svg" →
  by_suffix suffix pm = by_suffix suffix (filter (λ e, known_suffix e.2 = true) pm).
Proof.
  intros Hs. unfold by_suffix. apply fold_keep_known.
  intros path E. unfold known_suffix.
  destruct Hs as [-> | ->]; rewrite E; [done | by rewrite orb_true_r].
Qed.

(** ** Loops *)

(** A property of the state that every iteration keeps, whatever it
    returns, holds when the loop ends, and the loop ends in nothing an
    iteration could not end in. *)
Lemma for_safe {A} (l : list A) (body : A → M unit)
    (I : State → Prop) (R : outcome unit → Prop) (st : State) :
  R (Ok tt) → I st →
  (∀ x st, x ∈ l → I st → I (body x st).2 ∧ R (body x st).1) →
  I (for_ l body st).2 ∧ R (for_ l body st).1.
Proof.
  intros Hok. revert st. induction l as [|x l IH]; simpl; intros st Hst Hbody; [done |].
  unfold bind. destruct (Hbody x st) as [HI HR]; [left | done |].
  destruct (body x st) as [[[]|e] st']; simpl in *; [| done].
  apply IH; [done |]. intros y st'' Hy. apply Hbody. by right.
Qed.

(** An invariant over the entries already handled; when each iteration
    returns and extends it, the loop returns. *)
Lemma for_invariant {A} (l : list A) (body : A → M unit)
    (I : list A → State → Prop) (done : list A) (st : State) :
  I done st →
  (∀ done x st, x ∈ l → I done st →
     ∃ st', body x st = (Ok tt, st') ∧ I (done ++ [x])%list st') →
  ∃ st', for_ l body st = (Ok tt, st') ∧ I (done ++ l)%list st'.
Proof.
  revert done st. induction l as [|x l IH]; simpl; intros done st Hst Hbody.
  - exists st. by rewrite app_nil_r.
  - destruct (Hbody done x st) as (st' & E & HI); [left | done |].
    unfold bind. rewrite E.
    destruct (IH (done ++ [x])%list st' HI) as (st'' & E' & HI').
    { intros d y s Hy. apply Hbody. by right. }
    exists st''. split; [done |]. by rewrite <- app_assoc in HI'.
Qed.

(** ** Construction *)

(** What [PanelMosaic(...)] leaves when [gridspec_kw] is not [None]: the
    three attributes assigned before the branch, and pyplot switched to
    non-interactive by [plt.ioff()]. *)
Lemma new_gridspec_kw_state lib mosaic figsize layout kw st :
  PanelMosaic.new lib mosaic figsize layout (Some kw) st =
  (Raise (AttributeError "gridspec_kw"),
   {| self := set_layout layout (set_figsize figsize (set_mosaic mosaic blank));
      world := set_interactive false (world st) |}).
Proof. reflexivity. Qed.

Lemma new_default lib mosaic figsize layout st :
  ∃ st', PanelMosaic.new lib mosaic figsize layout None st = (Ok tt, st') ∧
    gridspec_kw (self st') = Some [("hspace", 0.0%float); ("wspace", 0.0%float)] ∧
    keys (panels st') = remove_dups (plt_mosaic_labels lib mosaic) ∧
    constructed st'.
Proof.
  eexists. split; [reflexivity |]. split; [reflexivity |].
  set (labels := remove_dups (plt_mosaic_labels lib mosaic)).
  assert ((zip labels (seq (length (axes (world st))) (length labels))).*1 = labels) as E1.
  { apply fst_zip. by rewrite length_seq. }
  assert ((zip labels (seq (length (axes (world st))) (length labels))).*2 =
          seq (length (axes (world st))) (length labels)) as E2.
  { apply snd_zip. by rewrite length_seq. }
  split; [exact E1 |].
  unfold constructed. cbn. fold labels. unfold keys. rewrite E1, E2.
  split_and!.
  - apply NoDup_remove_dups.
  - apply NoDup_seq.
  - apply Forall_forall. intros ax Hax. apply elem_of_seq in Hax.
    rewrite length_app, length_replicate. lia.
Qed.

(** C9. [PanelMosaic(...)] returns only when [gridspec_kw] is [None]: with
    any other value the attribute [gridspec_kw] is never assigned,
    [_set_up_axes] raises [AttributeError] on reading it, and what is left
    behind does not depend on the value that was passed. *)
Theorem init_needs_gridspec_kw_None lib mosaic figsize layout st :
  (∀ kw, ∃ st',
     PanelMosaic.new lib mosaic figsize layout (Some kw) st =
       (Raise (AttributeError "gridspec_kw"), st') ∧
     gridspec_kw (self st') = None ∧
     ∀ kw', PanelMosaic.new lib mosaic figsize layout (Some kw') st =
            (Raise (AttributeError "gridspec_kw"), st')) ∧
  (∃ st', PanelMosaic.new lib mosaic figsize layout None st = (Ok tt, st')) ∧
  (∀ kw, (PanelMosaic.new lib mosaic figsize layout kw st).1 = Ok tt ↔ kw = None).
Proof.
  split_and!.
  - intros kw. eexists. split; [apply new_gridspec_kw_state |].
    split; [reflexivity |]. intros kw'. apply new_gridspec_kw_state.
  - destruct (new_default lib mosaic figsize layout st) as (st' & E & _). eauto.
  - intros [kw|]; split; intros H; try done.
Qed.

(** ** Writing *)

(** C10. On a [Path], [write_svg] raises [TypeError] at [out_path + ".svg"]
    and touches nothing, while [write_pdf] returns, having written the
    conversion of [self.svg] at [str(out_path) + ".pdf"]. *)
Theorem write_svg_rejects_Path_write_pdf_accepts lib p s st :
  svg (self st) = Some s →
  PanelMosaic.write_svg (PPath p) st =
    (Raise (TypeError "unsupported operand type(s) for +: 'PosixPath' and 'str'"), st) ∧
  PanelMosaic.write_pdf lib (PPath p) st =
    (Ok tt,
     {| self := self st;
        world := set_files
          (dict_set (p +:+ ".pdf") (cairosvg_svg2pdf lib s) (files (world st)))
          (world st) |}).
Proof.
  intros Hs. split; [reflexivity |].
  unfold PanelMosaic.write_pdf, bind, getattr. by rewrite Hs.
Qed.

Lemma write_svg_rejects_Path_write_pdf_accepts_witness :
  svg (self Demo.st_AB) = Some "<svg/>" ∧
  (PanelMosaic.write_svg (PPath "fig") Demo.st_AB).1 =
    Raise (TypeError "unsupported operand type(s) for +: 'PosixPath' and 'str'") ∧
  dict_get "fig.pdf" (files (world (PanelMosaic.write_pdf Demo.lib (PPath "fig") Demo.st_AB).2))
    = Some "%PDF <svg/>".
Proof.
  assert (svg (self Demo.st_AB) = Some "<svg/>") as Hs by reflexivity.
  destruct (write_svg_rejects_Path_write_pdf_accepts Demo.lib "fig" "<svg/>" Demo.st_AB Hs)
    as [E1 E2].
  split; [exact Hs |]. rewrite E1, E2. split; reflexivity.
Defined.

(** C4, at a [Path]: when ["svg"] is among the formats, [write] raises the
    [TypeError] of [write_svg] and writes no file, the PDF included. *)
Theorem write_Path_svg_raises lib p formats st :
  py_in "svg" formats = true →
  PanelMosaic.write lib (PPath p) formats st =
    (Raise (TypeError "unsupported operand type(s) for +: 'PosixPath' and 'str'"), st).
Proof. intros H. unfold PanelMosaic.write, bind. by rewrite H. Qed.

Lemma write_Path_svg_raises_witness :
  py_in "svg" ["svg"; "pdf"] = true ∧
  PanelMosaic.write Demo.lib (PPath "fig") ["svg"; "pdf"] Demo.st_AB =
    (Raise (TypeError "unsupported operand type(s) for +: 'PosixPath' and 'str'"),
     Demo.st_AB).
Proof.
  split; [reflexivity |].
  apply (write_Path_svg_raises Demo.lib "fig" ["svg"; "pdf"] Demo.st_AB). reflexivity.
Defined.

(** ** The free function *)

(** C1. [panel_mosaic] returns the instance it built, [pm], or raises: it
    never returns a [str]. On the mosaic ["AB"] with a [.png] for ["A"] it
    returns the instance. *)
Theorem panel_mosaic_returns_the_instance :
  (∀ lib mosaic panel_mapping figsize fontsize panel_borders layout label_pos st,
     ∃ st',
       panel_mosaic lib mosaic panel_mapping figsize fontsize panel_borders
         layout label_pos st = (Ok (VPanelMosaic (self st')), st') ∨
       ∃ e, panel_mosaic lib mosaic panel_mapping figsize fontsize panel_borders
         layout label_pos st = (Raise e, st')) ∧
  (∃ st',
     panel_mosaic Demo.lib (MosaicStr "AB") [("A", "a.png")] (10, 8)%float 30
       false "tight" (0, 1)%float {| self := blank; world := Demo.w0 |}
     = (Ok (VPanelMosaic (self st')), st') ∧
     svg (self st') = Some "<svg></svg>").
Proof.
  split.
  - intros. unfold panel_mosaic, bind.
    destruct (PanelMosaic.new _ _ _ _ _ _) as [[[]|e] st1]; [| by eauto].
    destruct (PanelMosaic.label_axes _ _ _ _ _) as [[[]|e] st2]; [| by eauto].
    destruct (PanelMosaic.format_axes _ _) as [[[]|e] st3]; [| by eauto].
    destruct (PanelMosaic.map _ _ _) as [[[]|e] st4]; [| by eauto].
    exists st4. by left.
  - eexists (panel_mosaic Demo.lib (MosaicStr "AB") [("A", "a.png")] (10, 8)%float
               30 false "tight" (0, 1)%float {| self := blank; world := Demo.w0 |}).2.
    split; by vm_compute.
Qed.

(** ** [map]: a missing file *)

(** C7. When the first [.png] entry names a file that does not exist,
    [map] raises the [FileNotFoundError] of [open], as it is; by then
    [self.panel_mapping] is the new mapping, and neither the axes nor
    [self.svg] have been touched. *)
Theorem map_missing_png_propagates lib pm label path rest st :
  by_suffix ".png" pm = (label, path) :: rest →
  dict_get path (files (world st)) = None →
  ∃ st',
    open_rb path st' = (Raise (FileNotFoundError path), st') ∧
    PanelMosaic.map lib pm st = (Raise (FileNotFoundError path), st') ∧
    panel_mapping (self st') = Some (Some pm) ∧
    svg (self st') = svg (self st) ∧
    world st' = world st.
Proof.
  intros Hpng Hfile.
  exists {| self := set_png_panel_mapping (by_suffix ".png" pm)
                      (set_panel_mapping (Some pm) (self st));
            world := world st |}.
  assert (∀ s, world s = world st →
            open_rb path s = (Raise (FileNotFoundError path), s)) as Hopen.
  { intros s Hw. unfold open_rb. by rewrite Hw, Hfile. }
  split_and!; try reflexivity.
  - by apply Hopen.
  - unfold PanelMosaic.map, bind at 1 2 3. cbn. rewrite Hpng. cbn.
    unfold bind at 1 2. by rewrite Hopen.
Qed.

Lemma map_missing_png_propagates_witness :
  ∃ st',
    PanelMosaic.map Demo.lib [("A", "missing.png")] Demo.st_AB =
      (Raise (FileNotFoundError "missing.png"), st') ∧
    panel_mapping (self st') = Some (Some [("A", "missing.png")]).
Proof.
  destruct (map_missing_png_propagates Demo.lib [("A", "missing.png")] "A"
              "missing.png" [] Demo.st_AB eq_refl eq_refl)
    as (st' & _ & E & Hpm & _).
  exists st'. by split.
Defined.

(** ** Loops that call one axes per entry *)

Lemma world_set_axes_same (w : World) : w = set_axes (axes w) w.
Proof. by destruct w. Qed.

(** A loop whose every turn changes the axes of its entry, over entries
    with axes of their own: each of these axes is changed once, by its
    entry, and nothing else is. *)
Lemma for_update {A} (l : list A) (ref : A → nat) (f : A → Axes → Axes)
    (body : A → M unit) (P : PanelMosaic → Prop) (st : State) :
  P (self st) →
  (∀ x st, x ∈ l → P (self st) → body x st = (Ok tt, altered (f x) (ref x) st)) →
  NoDup (ref <$> l) →
  ∃ st', for_ l body st = (Ok tt, st') ∧
    self st' = self st ∧
    world st' = set_axes (axes (world st')) (world st) ∧
    length (axes (world st')) = length (axes (world st)) ∧
    (∀ x, x ∈ l → axes (world st') !! ref x = f x <$> axes (world st) !! ref x) ∧
    (∀ i, i ∉ ref <$> l → axes (world st') !! i = axes (world st) !! i).
Proof.
  revert st. induction l as [|x l IH]; simpl; intros st HP Hbody Hnd.
  - exists st. split_and!; try done.
    + apply world_set_axes_same.
    + intros x Hx. by apply elem_of_nil in Hx.
  - apply NoDup_cons in Hnd as [Hx Hnd].
    unfold bind. rewrite Hbody by (done || left).
    destruct (IH (altered (f x) (ref x) st)) as (st' & E & Hs & Hw & Hlen & Hin & Hout);
      [done | | done |].
    { intros y s Hy. apply Hbody. by right. }
    exists st'. split_and!; try done.
    + rewrite Hlen. cbn. by rewrite length_alter.
    + intros y Hy. apply elem_of_cons in Hy as [->|Hy].
      * rewrite Hout by done. cbn. apply list_lookup_alter_eq.
      * rewrite Hin by done. cbn. f_equal. apply list_lookup_alter_ne.
        intros Heq. apply Hx. rewrite Heq. by apply list_elem_of_fmap_2.
    + intros i Hi. apply not_elem_of_cons in Hi as [Hne Hi].
      rewrite Hout by done. cbn. by apply list_lookup_alter_ne.
Qed.

Lemma constructed_panels (st : State) :
  constructed st →
  axs (self st) = Some (panels st) ∧ is_Some (svg (self st)) ∧
  is_dict (panels st) ∧ NoDup (panels st).*2 ∧
  ∀ label ax, (label, ax) ∈ panels st → ax < length (axes (world st)).
Proof.
  unfold constructed, panels, is_dict.
  destruct (axs (self st)) as [a|]; [| done].
  destruct (svg (self st)) as [s|]; [| done].
  intros (Hk & Hr & Hlt). split_and!; [done | by eexists | done | done |].
  intros label ax Hin. rewrite Forall_forall in Hlt. apply Hlt.
  by apply (list_elem_of_fmap_2 snd) in Hin.
Qed.

(** ** [label_axes] *)

Lemma _label_axes_turn label ax fontsize label_pos ha va st :
  (Axes_autoscale ax false ;;
   Axes_text ax
     {| text_x := label_pos.1; text_y := label_pos.2; text_s := label +:+ "";
        text_horizontalalignment := ha; text_verticalalignment := va;
        text_transform := transAxes; text_fontsize := fontsize;
        text_clip_on := false |} ;;
   Axes_set ax [] []) st =
  (Ok tt, altered (labelled label fontsize label_pos ha va) ax st).
Proof.
  unfold Axes_autoscale, Axes_text, Axes_set, update_axes, modify_world, bind, altered.
  cbn. do 2 f_equal. unfold set_axes. cbn. f_equal.
  rewrite !list_alter_alter_eq. apply list_alter_ext; [| done].
  intros a _. unfold labelled. cbn. by rewrite append_empty_r.
Qed.

(** C5. On a constructed instance [label_axes] returns, and the axes of
    every panel has gained exactly one text: the panel's label, at
    [label_pos] in axes coordinates ([transform=ax.transAxes]), with the
    alignment and font size that were passed. Axes that are no panel's are
    as they were. *)
Theorem label_axes_one_text_per_panel fontsize label_pos ha va st :
  constructed st →
  ∃ st', PanelMosaic.label_axes fontsize label_pos ha va st = (Ok tt, st') ∧
    self st' = self st ∧
    (∀ label ax, (label, ax) ∈ panels st →
       ∃ a a', axes (world st) !! ax = Some a ∧
         axes (world st') !! ax = Some a' ∧
         a' = labelled label fontsize label_pos ha va a ∧
         ax_texts a' = ax_texts a ++
           [{| text_x := label_pos.1; text_y := label_pos.2; text_s := label;
               text_horizontalalignment := ha; text_verticalalignment := va;
               text_transform := transAxes; text_fontsize := fontsize;
               text_clip_on := false |}]) ∧
    (∀ i, i ∉ (panels st).*2 → axes (world st') !! i = axes (world st) !! i).
Proof.
  intros Hc. destruct (constructed_panels st Hc) as (Haxs & _ & _ & Hnd & Hlt).
  unfold PanelMosaic.label_axes, bind, getattr. rewrite Haxs. unfold _label_axes.
  destruct (for_update (panels st) snd
              (λ x, labelled x.1 fontsize label_pos ha va)
              (λ '(label, ax),
                 Axes_autoscale ax false ;;
                 Axes_text ax
                   {| text_x := label_pos.1; text_y := label_pos.2;
                      text_s := label +:+ "";
                      text_horizontalalignment := ha; text_verticalalignment := va;
                      text_transform := transAxes; text_fontsize := fontsize;
                      text_clip_on := false |} ;;
                 Axes_set ax [] [])
              (λ _, True) st I)
    as (st' & E & Hs & _ & _ & Hin & Hout); [| done |].
  { intros [label ax] s _ _. apply _label_axes_turn. }
  exists st'. split_and!; try done.
  intros label ax Hp. destruct (lookup_lt_is_Some_2 (axes (world st)) ax) as [a Ha].
  { by apply (Hlt label). }
  exists a, (labelled label fontsize label_pos ha va a).
  split_and!; try done.
  specialize (Hin (label, ax) Hp). cbn in Hin. by rewrite Hin, Ha.
Qed.

Lemma label_axes_one_text_per_panel_witness :
  constructed Demo.st_AB ∧
  ∃ st', PanelMosaic.label_axes 30 (0, 1)%float "left" "top" Demo.st_AB = (Ok tt, st') ∧
    ∃ a', axes (world st') !! 1 = Some a' ∧
      text_s <$> ax_texts a' = ["B"].
Proof.
  assert (constructed Demo.st_AB) as Hc by by_evaluation.
  split; [exact Hc |].
  destruct (label_axes_one_text_per_panel 30 (0, 1)%float "left" "top" Demo.st_AB Hc)
    as (st' & E & _ & Hin & _).
  exists st'. split; [exact E |].
  destruct (Hin "B" 1) as (a & a' & Ha & Ha' & _ & Ht).
  { by_evaluation. }
  exists a'. split; [exact Ha' |].
  rewrite Ht. injection Ha as <-. reflexivity.
Defined.

(** ** [format_axes] *)

(** C6. Without panel borders [format_axes] turns the axis of every panel
    off and changes nothing else; with panel borders it changes nothing at
    all. *)
Theorem format_axes_borders st :
  constructed st →
  (∃ st', PanelMosaic.format_axes false st = (Ok tt, st') ∧
     self st' = self st ∧
     (∀ label ax, (label, ax) ∈ panels st →
        ∃ a a', axes (world st) !! ax = Some a ∧
          axes (world st') !! ax = Some a' ∧
          a' = axis_off a ∧ ax_axison a' = false) ∧
     (∀ i, i ∉ (panels st).*2 → axes (world st') !! i = axes (world st) !! i)) ∧
  PanelMosaic.format_axes true st = (Ok tt, st).
Proof.
  intros Hc. destruct (constructed_panels st Hc) as (Haxs & _ & _ & Hnd & Hlt).
  unfold PanelMosaic.format_axes, bind, getattr. rewrite Haxs. split.
  - destruct (for_update (panels st) snd (λ _, axis_off)
                (λ '(_, ax), if negb false then Axes_axis_off ax else ret tt)
                (λ _, True) st I)
      as (st' & E & Hs & _ & _ & Hin & Hout); [| done |].
    { by intros [label ax] s _ _. }
    exists st'. split_and!; try done.
    intros label ax Hp. destruct (lookup_lt_is_Some_2 (axes (world st)) ax) as [a Ha].
    { by apply (Hlt label). }
    exists a, (axis_off a). split_and!; try done.
    specialize (Hin (label, ax) Hp). cbn in Hin. by rewrite Hin, Ha.
  - cbn. clear. induction (panels st) as [|[label ax] l IH]; simpl; [done |].
    unfold bind. simpl. apply IH.
Qed.

Lemma format_axes_borders_witness :
  constructed Demo.st_AB ∧
  (∃ st', PanelMosaic.format_axes false Demo.st_AB = (Ok tt, st') ∧
     ax_axison <$> axes (world st') = [false; false]) ∧
  PanelMosaic.format_axes true Demo.st_AB = (Ok tt, Demo.st_AB).
Proof.
  assert (constructed Demo.st_AB) as Hc by by_evaluation.
  split; [exact Hc |].
  destruct (format_axes_borders Demo.st_AB Hc) as [(st' & E & _) Eon].
  split; [| exact Eon].
  exists st'. split; [exact E |].
  replace st' with (PanelMosaic.format_axes false Demo.st_AB).2 by (by rewrite E).
  reflexivity.
Defined.

(** ** [map], turn by turn *)

(** One turn of the first loop, case by case: [open] comes first, then the
    lookup of [self.axs], then the subscript; only then is anything drawn. *)
Lemma draw_png_cases lib label path st :
  PanelMosaic.draw_png lib (label, path) st =
  match dict_get path (files (world st)) with
  | None => (Raise (FileNotFoundError path), st)
  | Some data =>
      match axs (self st) with
      | None => (Raise (AttributeError "axs"), st)
      | Some a =>
          match dict_get label a with
          | None => (Raise (KeyError label), st)
          | Some ax =>
              (Ok tt,
               {| self := self st;
                  world := set_axes
                    (alter (add_child (length (axes (world st)))) ax (axes (world st))
                       ++ [png_inset (plt_imread lib data)])
                    (world st) |})
          end
      end
  end.
Proof.
  unfold PanelMosaic.draw_png, bind, open_rb, getattr, lift, subscript.
  destruct (dict_get path (files (world st))) as [data|]; [| done].
  destruct (axs (self st)) as [a|]; [| done].
  destruct (dict_get label a) as [ax|]; [| done].
  unfold Axes_inset_axes, Axes_imshow, Axes_axis_off, update_axes, modify_world,
    get_world, bind, ret. cbn.
  do 2 f_equal. unfold set_axes. cbn. f_equal.
  set (l := alter _ ax _).
  assert (length (axes (world st)) = length l + 0) as ->.
  { unfold l. rewrite length_alter. lia. }
  by rewrite !alter_app_r.
Qed.

Lemma connect_svg_cases label st :
  PanelMosaic.connect_svg label st =
  match axs (self st) with
  | None => (Raise (AttributeError "axs"), st)
  | Some a =>
      match dict_get label a with
      | None => (Raise (KeyError label), st)
      | Some ax => (Ok tt, altered (add_artist label) ax st)
      end
  end.
Proof.
  unfold PanelMosaic.connect_svg, bind, getattr, lift, subscript.
  destruct (axs (self st)) as [a|]; [| done].
  by destruct (dict_get label a) as [ax|].
Qed.

(** [map] as its two loops and the assignments around them. *)
Lemma map_unfold lib pm st :
  PanelMosaic.map lib pm st =
  match for_ (by_suffix ".png" pm) (PanelMosaic.draw_png lib)
          {| self := set_png_panel_mapping (by_suffix ".png" pm)
                       (set_panel_mapping (Some pm) (self st));
             world := world st |} with
  | (Raise e, st2) => (Raise e, st2)
  | (Ok _, st2) =>
      match for_ (keys (by_suffix ".svg" pm)) PanelMosaic.connect_svg
              {| self := set_svg_panel_mapping (by_suffix ".svg" pm) (self st2);
                 world := world st2 |} with
      | (Raise e, st4) => (Raise e, st4)
      | (Ok _, st4) =>
          (Ok tt,
           {| self := set_svg (skunk_insert lib (by_suffix ".svg" pm) (world st4))
                        (self st4);
              world := world st4 |})
      end
  end.
Proof.
  unfold PanelMosaic.map, bind at 1 2 3. cbn.
  destruct (for_ _ _ _) as [[[]|e] st2]; [| done].
  unfold bind at 1 2. cbn.
  by destruct (for_ _ _ _) as [[[]|e] st4].
Qed.

Lemma panels_axs (st : State) (a : dict nat) :
  axs (self st) = Some a → panels st = a.
Proof. unfold panels. by intros ->. Qed.

(** ** [map]: the subscripts *)

(** No turn of either loop raises [KeyError] when the labels of the mapping
    are panels; the loops leave [self.axs] alone. *)
Lemma map_loops_no_KeyError lib pm st :
  (∀ label, label ∈ keys pm → label ∈ keys (panels st)) →
  ∀ k, (PanelMosaic.map lib pm st).1 ≠ Raise (KeyError k).
Proof.
  intros Hlabels. rewrite map_unfold.
  set (I := λ s : State, axs (self s) = axs (self st)).
  set (R := λ o : outcome unit, ∀ k, o ≠ Raise (KeyError k)).
  assert (∀ label s, label ∈ keys pm → I s → ∀ a, axs (self s) = Some a →
            is_Some (dict_get label a)) as Hget.
  { intros label s Hin Hs a Ha. apply dict_get_is_Some.
    rewrite <- (panels_axs st a) by (by rewrite <- Hs). by apply Hlabels. }
  match goal with |- context [for_ ?l ?b ?s] =>
    destruct (for_safe l b I R s) as [HI HR] end; [done | done | |].
  { intros [label path] s Hin Hs. rewrite draw_png_cases.
    apply by_suffix_elem in Hin as [_ Hin].
    apply (list_elem_of_fmap_2 fst) in Hin.
    destruct (dict_get path (files (world s))); [| done].
    destruct (axs (self s)) as [a|] eqn:Ha; [| done].
    destruct (Hget label s Hin Hs a Ha) as [ax ->]. done. }
  destruct (for_ _ _ _) as [[[]|e] st2]; [| exact HR]. cbn in HI.
  match goal with |- context [for_ ?l ?b ?s] =>
    destruct (for_safe l b I R s) as [HI' HR'] end; [done | done | |].
  { intros label s Hin Hs. rewrite connect_svg_cases.
    apply by_suffix_keys in Hin as (path & _ & Hin).
    apply (list_elem_of_fmap_2 fst) in Hin.
    destruct (axs (self s)) as [a|] eqn:Ha; [| done].
    destruct (Hget label s Hin Hs a Ha) as [ax ->]. done. }
  by destruct (for_ _ _ _) as [[[]|e] st4].
Qed.

(** C3. When every label of the mapping is a panel of the mosaic, no
    [self.axs[label]] of [map] raises: [map] never ends in [KeyError]. And a
    mapping with a label that is no panel makes [map] raise [KeyError]. *)
Theorem map_axis_lookup :
  (∀ lib pm st,
     (∀ label, label ∈ keys pm → label ∈ keys (panels st)) →
     ∀ k, (PanelMosaic.map lib pm st).1 ≠ Raise (KeyError k)) ∧
  (∃ lib pm st label,
     constructed st ∧ label ∈ keys pm ∧ (label ∉ keys (panels st)) ∧
     (PanelMosaic.map lib pm st).1 = Raise (KeyError label)).
Proof.
  split; [exact map_loops_no_KeyError |].
  exists Demo.lib, [("Z", "a.png")], Demo.st_AB, "Z".
  split_and!; [by_evaluation | by_evaluation | by_evaluation | reflexivity].
Qed.

Lemma map_axis_lookup_witness :
  (∀ label, label ∈ keys [("A", "a.png"); ("B", "b.svg")] →
            label ∈ keys (panels Demo.st_AB)) ∧
  (PanelMosaic.map Demo.lib [("A", "a.png"); ("B", "b.svg")] Demo.st_AB).1 = Ok tt ∧
  (∀ k, (PanelMosaic.map Demo.lib [("A", "a.png"); ("B", "b.svg")] Demo.st_AB).1
        ≠ Raise (KeyError k)).
Proof.
  assert (∀ label, label ∈ keys [("A", "a.png"); ("B", "b.svg")] →
                   label ∈ keys (panels Demo.st_AB)) as Hlabels.
  { intros label Hin. vm_compute in Hin. vm_compute.
    apply elem_of_cons in Hin as [->|Hin]; [left |].
    apply elem_of_cons in Hin as [->|Hin]; [right; left |].
    by apply elem_of_nil in Hin. }
  split; [exact Hlabels |]. split; [reflexivity |].
  exact (proj1 map_axis_lookup Demo.lib _ Demo.st_AB Hlabels).
Defined.

(** ** [map]: what the loops build *)

(** A panel that holds an image still holds it after a later call on a
    panel's axes, whatever is added to the store, as long as the call
    keeps the children of the axes. *)
Lemma drawn_stable lib st0 s s' f ax' extra label path :
  axes (world s') = alter f ax' (axes (world s)) ++ extra →
  ax' < length (axes (world st0)) →
  (∀ a c, c ∈ ax_child_axes a → c ∈ ax_child_axes (f a)) →
  drawn lib st0 s label path → drawn lib st0 s' label path.
Proof.
  intros Hs' Hlt Hf (ax & data & child & a' & Hax & Hdata & Ha' & Hc & Hn & Hchild).
  exists ax, data, child, (if decide (ax' = ax) then f a' else a').
  split_and!; try done.
  - rewrite Hs'. apply lookup_app_l_Some. rewrite list_lookup_alter.
    destruct (decide (ax' = ax)) as [->|]; [by rewrite Ha' | done].
  - destruct (decide (ax' = ax)); [by apply Hf | done].
  - rewrite Hs'. apply lookup_app_l_Some.
    rewrite list_lookup_alter_ne by lia. done.
Qed.

Lemma connected_stable st0 s s' f ax' extra label :
  axes (world s') = alter f ax' (axes (world s)) ++ extra →
  (∀ a g, g ∈ ax_artists a → g ∈ ax_artists (f a)) →
  connected st0 s label → connected st0 s' label.
Proof.
  intros Hs' Hf (ax & a' & Hax & Ha' & Hg).
  exists ax, (if decide (ax' = ax) then f a' else a').
  split_and!; try done.
  - rewrite Hs'. apply lookup_app_l_Some. rewrite list_lookup_alter.
    destruct (decide (ax' = ax)) as [->|]; [by rewrite Ha' | done].
  - destruct (decide (ax' = ax)); [by apply Hf | done].
Qed.

(** The first loop: every entry whose label is a panel and whose file
    exists gets its inset. *)
Lemma draw_loop lib st0 (l : dict string) s0 :
  axs (self s0) = Some (panels st0) →
  world s0 = world st0 →
  (∀ label ax, dict_get label (panels st0) = Some ax →
               ax < length (axes (world st0))) →
  (∀ label path, (label, path) ∈ l →
     is_Some (dict_get label (panels st0)) ∧
     is_Some (dict_get path (files (world st0)))) →
  ∃ s, for_ l (PanelMosaic.draw_png lib) s0 = (Ok tt, s) ∧
    self s = self s0 ∧
    world s = set_axes (axes (world s)) (world st0) ∧
    length (axes (world st0)) ≤ length (axes (world s)) ∧
    ∀ label path, (label, path) ∈ l → drawn lib st0 s label path.
Proof.
  intros Haxs Hw Hlt Hl.
  destruct (for_invariant l (PanelMosaic.draw_png lib)
    (λ done s, self s = self s0 ∧
       world s = set_axes (axes (world s)) (world st0) ∧
       length (axes (world st0)) ≤ length (axes (world s)) ∧
       ∀ label path, (label, path) ∈ done → drawn lib st0 s label path)
    [] s0) as (s & E & HI); [| | by exists s].
  { split_and!; [done | | by rewrite Hw |].
    - rewrite Hw. apply world_set_axes_same.
    - intros label path Hin. by apply elem_of_nil in Hin. }
  intros done [label path] s Hin (Hself & Hworld & Hlen & Hdrawn).
  destruct (Hl label path Hin) as [[ax Hax] [data Hdata]].
  rewrite draw_png_cases.
  assert (files (world s) = files (world st0)) as -> by (by rewrite Hworld).
  rewrite Hdata, Hself, Haxs, Hax.
  eexists. split; [reflexivity |]. cbn.
  pose proof (Hlt label ax Hax) as Hax_lt.
  split_and!; [done | by rewrite Hworld | rewrite length_app, length_alter; lia |].
  intros label' path' Hin'. apply elem_of_app in Hin' as [Hin'|Hin'].
  - apply (drawn_stable lib st0 s _ (add_child (length (axes (world s)))) ax
             [png_inset (plt_imread lib data)]); [done | done | |by apply Hdrawn].
    intros a c Hc. cbn. apply elem_of_app. by left.
  - apply list_elem_of_singleton in Hin' as [= -> ->].
    destruct (lookup_lt_is_Some_2 (axes (world s)) ax) as [a Ha]; [lia |].
    exists ax, data, (length (axes (world s))), (add_child (length (axes (world s))) a).
    split_and!; try done.
    + cbn. apply lookup_app_l_Some. by rewrite list_lookup_alter_eq, Ha.
    + cbn. apply elem_of_app. right. left.
    + cbn. rewrite lookup_app_r by (by rewrite length_alter).
      by rewrite length_alter, Nat.sub_diag.
Qed.

(** The second loop: every label that is a panel gets its placeholder, and
    the insets of the first loop stay. *)
Lemma connect_loop lib st0 (l : list string) s0 :
  axs (self s0) = Some (panels st0) →
  world s0 = set_axes (axes (world s0)) (world st0) →
  length (axes (world st0)) ≤ length (axes (world s0)) →
  (∀ label ax, dict_get label (panels st0) = Some ax →
               ax < length (axes (world st0))) →
  (∀ label, label ∈ l → is_Some (dict_get label (panels st0))) →
  ∃ s, for_ l PanelMosaic.connect_svg s0 = (Ok tt, s) ∧
    self s = self s0 ∧
    world s = set_axes (axes (world s)) (world st0) ∧
    length (axes (world s)) = length (axes (world s0)) ∧
    (∀ label path, drawn lib st0 s0 label path → drawn lib st0 s label path) ∧
    ∀ label, label ∈ l → connected st0 s label.
Proof.
  intros Haxs Hw Hlen0 Hlt Hl.
  destruct (for_invariant l PanelMosaic.connect_svg
    (λ done s, self s = self s0 ∧
       world s = set_axes (axes (world s)) (world st0) ∧
       length (axes (world s)) = length (axes (world s0)) ∧
       (∀ label path, drawn lib st0 s0 label path → drawn lib st0 s label path) ∧
       ∀ label, label ∈ done → connected st0 s label)
    [] s0) as (s & E & HI); [| | by exists s].
  { split_and!; try done. intros label Hin. by apply elem_of_nil in Hin. }
  intros done label s Hin (Hself & Hworld & Hlen & Hdrawn & Hconn).
  destruct (Hl label Hin) as [ax Hax].
  rewrite connect_svg_cases, Hself, Haxs, Hax.
  eexists. split; [reflexivity |]. cbn.
  pose proof (Hlt label ax Hax) as Hax_lt.
  assert (axes (world (altered (add_artist label) ax s)) =
          alter (add_artist label) ax (axes (world s)) ++ []) as Hstep.
  { by rewrite app_nil_r. }
  split_and!; [done | by rewrite Hworld | by rewrite length_alter | |].
  - intros label' path' Hd.
    apply (drawn_stable lib st0 s _ (add_artist label) ax []);
      [done | done | done | by apply Hdrawn].
  - intros label' Hin'. apply elem_of_app in Hin' as [Hin'|Hin'].
    + apply (connected_stable st0 s _ (add_artist label) ax []); [done | | by apply Hconn].
      intros a g Hg. cbn. apply elem_of_app. by left.
    + apply list_elem_of_singleton in Hin' as ->.
      destruct (lookup_lt_is_Some_2 (axes (world s)) ax) as [a Ha]; [lia |].
      exists ax, (add_artist label a). split_and!; [done | |].
      * cbn. by rewrite list_lookup_alter_eq, Ha.
      * cbn. apply elem_of_app. right. left.
Qed.

Lemma constructed_intro (st : State) (a : dict nat) :
  axs (self st) = Some a → is_Some (svg (self st)) →
  is_dict a → NoDup a.*2 →
  (∀ label ax, (label, ax) ∈ a → ax < length (axes (world st))) →
  constructed st.
Proof.
  intros Ha [s Hs] Hk Hr Hlt. unfold constructed. rewrite Ha, Hs.
  split_and!; [done | done |].
  apply Forall_forall. intros ax Hax.
  apply list_elem_of_fmap_1 in Hax as [[label ax'] [-> Hin]]. by apply (Hlt label).
Qed.

(** C2, as the code has it. On a constructed instance, for a mapping whose
    labels are all panels and whose [.png] paths all name existing files,
    [map] returns, and then: every entry whose path ends with [.png] has
    its image, read from its file, in an inset axes made inside its panel's
    axes; every entry whose path ends with [.svg] has a placeholder on its
    panel's axes; [self.svg] is what [skunk.insert] makes of the [.svg]
    entries in the world so built. *)
Theorem map_embeds_by_suffix lib pm st :
  constructed st → is_dict pm →
  (∀ label, label ∈ keys pm → label ∈ keys (panels st)) →
  (∀ label path, (label, path) ∈ pm → endswith path ".png" = true →
     is_Some (dict_get path (files (world st)))) →
  ∃ st', PanelMosaic.map lib pm st = (Ok tt, st') ∧
    constructed st' ∧ panels st' = panels st ∧
    panel_mapping (self st') = Some (Some pm) ∧
    png_panel_mapping (self st') =
      Some (filter (λ e, endswith e.2 ".png" = true) pm) ∧
    svg_panel_mapping (self st') =
      Some (filter (λ e, endswith e.2 ".svg" = true) pm) ∧
    (∀ label path, (label, path) ∈ pm → endswith path ".png" = true →
       drawn lib st st' label path) ∧
    (∀ label path, (label, path) ∈ pm → endswith path ".svg" = true →
       connected st st' label) ∧
    svg (self st') =
      Some (skunk_insert lib (filter (λ e, endswith e.2 ".svg" = true) pm)
              (world st')).
Proof.
  intros Hc Hd Hlabels Hfiles.
  destruct (constructed_panels st Hc) as (Haxs & Hsvg & Hk & Hr & Hlt).
  assert (∀ label ax, dict_get label (panels st) = Some ax →
                      ax < length (axes (world st))) as Hlt'.
  { intros label ax Hget. apply (Hlt label). by apply dict_get_elem. }
  assert (∀ label path, (label, path) ∈ pm →
                        is_Some (dict_get label (panels st))) as Hpanel.
  { intros label path Hin. apply dict_get_is_Some, Hlabels.
    by apply (list_elem_of_fmap_2 fst) in Hin. }
  rewrite map_unfold.
  destruct (draw_loop lib st (by_suffix ".png" pm)
              {| self := set_png_panel_mapping (by_suffix ".png" pm)
                           (set_panel_mapping (Some pm) (self st));
                 world := world st |})
    as (s2 & E2 & Hself2 & Hworld2 & Hlen2 & Hdrawn2); [done | done | done | |].
  { intros label path Hin. apply by_suffix_elem in Hin as [Epng Hin].
    split; [by apply (Hpanel label path) | by apply (Hfiles label)]. }
  rewrite E2.
  destruct (connect_loop lib st (keys (by_suffix ".svg" pm))
              {| self := set_svg_panel_mapping (by_suffix ".svg" pm) (self s2);
                 world := world s2 |})
    as (s4 & E4 & Hself4 & Hworld4 & Hlen4 & Hdrawn4 & Hconn4);
    [by cbn; rewrite Hself2 | done | done | done | |].
  { intros label Hin. apply by_suffix_keys in Hin as (path & _ & Hin).
    by apply (Hpanel label path). }
  rewrite E4. eexists. split; [reflexivity |].
  assert (axs (self s4) = Some (panels st)) as Haxs4.
  { by rewrite Hself4; cbn; rewrite Hself2. }
  split_and!.
  - apply (constructed_intro _ (panels st)); cbn; [done | by eexists | done | done |].
    intros label ax Hin. cbn in Hlen4. specialize (Hlt label ax Hin). lia.
  - by apply panels_axs.
  - cbn. by rewrite Hself4; cbn; rewrite Hself2.
  - cbn. rewrite Hself4; cbn; rewrite Hself2; cbn. by rewrite by_suffix_dict.
  - cbn. rewrite Hself4; cbn. by rewrite by_suffix_dict.
  - intros label path Hin Epng. cbn. apply Hdrawn4, Hdrawn2.
    by apply by_suffix_elem_dict.
  - intros label path Hin Esvg. cbn. apply Hconn4.
    apply (list_elem_of_fmap_2 fst (by_suffix ".svg" pm) (label, path)).
    by apply by_suffix_elem_dict.
  - cbn. by rewrite by_suffix_dict.
Qed.

Lemma map_embeds_by_suffix_witness :
  constructed Demo.st_AB ∧
  is_dict [("A", "a.png"); ("B", "b.svg")] ∧
  ∃ st', PanelMosaic.map Demo.lib [("A", "a.png"); ("B", "b.svg")] Demo.st_AB
           = (Ok tt, st') ∧
    drawn Demo.lib Demo.st_AB st' "A" "a.png" ∧
    connected Demo.st_AB st' "B" ∧
    svg (self st') = Some "<svg>B</svg>".
Proof.
  assert (constructed Demo.st_AB) as Hc by by_evaluation.
  assert (is_dict [("A", "a.png"); ("B", "b.svg")]) as Hd by by_evaluation.
  split; [exact Hc |]. split; [exact Hd |].
  destruct (map_embeds_by_suffix Demo.lib [("A", "a.png"); ("B", "b.svg")]
              Demo.st_AB Hc Hd)
    as (st' & E & _ & _ & _ & _ & _ & Hpng & Hsvg & Hs).
  - intros label Hin. vm_compute in Hin. vm_compute.
    apply elem_of_cons in Hin as [->|Hin]; [left |].
    apply elem_of_cons in Hin as [->|Hin]; [right; left |].
    by apply elem_of_nil in Hin.
  - intros label path Hin Epng.
    apply elem_of_cons in Hin as [[= -> ->]|Hin]; [by eexists |].
    apply elem_of_cons in Hin as [[= -> ->]|Hin]; [discriminate Epng |].
    by apply elem_of_nil in Hin.
  - exists st'. split; [exact E |]. split_and!.
    + apply (Hpng "A" "a.png"); [left | reflexivity].
    + apply (Hsvg "B" "b.svg"); [right; left | reflexivity].
    + rewrite Hs. replace st' with
        (PanelMosaic.map Demo.lib [("A", "a.png"); ("B", "b.svg")] Demo.st_AB).2
        by (by rewrite E).
      reflexivity.
Defined.

(** C2 as stated fails: a label of the mosaic with a [.png] path that names
    no file. [map] raises at [open]; no inset axes is made and [self.svg]
    is not replaced. *)
Lemma map_embeds_by_suffix_counterexample :
  constructed Demo.st_AB ∧
  is_dict [("A", "missing.png")] ∧
  keys [("A", "missing.png")] ⊆ keys (panels Demo.st_AB) ∧
  endswith "missing.png" ".png" = true ∧
  ∃ st', PanelMosaic.map Demo.lib [("A", "missing.png")] Demo.st_AB
           = (Raise (FileNotFoundError "missing.png"), st') ∧
    axes (world st') = axes (world Demo.st_AB) ∧
    ax_child_axes <$> axes (world st') = [[]; []] ∧
    svg (self st') = svg (self Demo.st_AB).
Proof.
  split_and!; [by_evaluation | by_evaluation | | reflexivity |].
  - intros label Hin. apply list_elem_of_singleton in Hin as ->. left.
  - exists (PanelMosaic.map Demo.lib [("A", "missing.png")] Demo.st_AB).2.
    split_and!; by vm_compute.
Qed.

(** ** [map]: what the loops leave alone *)

Lemma dict_get_inj {V} (k k' : string) (v : V) (d : dict V) :
  NoDup d.*2 → dict_get k d = Some v → dict_get k' d = Some v → k = k'.
Proof.
  induction d as [|[k0 v0] d IH]; simpl; [done |].
  intros Hnd. apply NoDup_cons in Hnd as [Hv0 Hnd].
  destruct (String.eqb_spec k k0) as [->|Hk], (String.eqb_spec k' k0) as [->|Hk'].
  - done.
  - intros [= ->] Hget. destruct Hv0.
    apply dict_get_elem in Hget. by apply (list_elem_of_fmap_2 snd) in Hget.
  - intros Hget [= ->]. destruct Hv0.
    apply dict_get_elem in Hget. by apply (list_elem_of_fmap_2 snd) in Hget.
  - by apply IH.
Qed.

Lemma by_suffix_not_key suffix (pm : dict string) label path :
  is_dict pm → (label, path) ∈ pm → endswith path suffix = false →
  label ∉ keys (by_suffix suffix pm).
Proof.
  intros Hd Hin E Hkey. apply by_suffix_keys in Hkey as (path' & E' & Hin').
  apply (elem_dict_get _ _ _ Hd) in Hin, Hin'. congruence.
Qed.

(** The first loop keeps the instance, never shrinks the store, and leaves
    alone every axes that is the panel of none of its entries. *)
Lemma draw_loop_frame lib (l : dict string) (a : dict nat) (ax : nat) s0 :
  axs (self s0) = Some a →
  ax < length (axes (world s0)) →
  (∀ label path, (label, path) ∈ l → dict_get label a ≠ Some ax) →
  self (for_ l (PanelMosaic.draw_png lib) s0).2 = self s0 ∧
  length (axes (world s0)) ≤
    length (axes (world (for_ l (PanelMosaic.draw_png lib) s0).2)) ∧
  axes (world (for_ l (PanelMosaic.draw_png lib) s0).2) !! ax =
    axes (world s0) !! ax.
Proof.
  intros Ha Hlt Hl.
  destruct (for_safe l (PanelMosaic.draw_png lib)
    (λ s, self s = self s0 ∧
          length (axes (world s0)) ≤ length (axes (world s)) ∧
          axes (world s) !! ax = axes (world s0) !! ax)
    (λ _, True) s0) as [HI _]; [done | done | | done].
  intros [label path] s Hin (Hself & Hlen & Hax). split; [| done].
  rewrite draw_png_cases.
  destruct (dict_get path (files (world s))); [| done].
  rewrite Hself, Ha.
  destruct (dict_get label a) as [ax'|] eqn:Hget; [| done]. cbn.
  split_and!; [done | rewrite length_app, length_alter; lia |].
  rewrite <- Hax. rewrite lookup_app_l by (rewrite length_alter; lia).
  apply list_lookup_alter_ne. intros ->. by apply (Hl label path).
Qed.

Lemma connect_loop_frame (l : list string) (a : dict nat) (ax : nat) s0 :
  axs (self s0) = Some a →
  (∀ label, label ∈ l → dict_get label a ≠ Some ax) →
  self (for_ l PanelMosaic.connect_svg s0).2 = self s0 ∧
  axes (world (for_ l PanelMosaic.connect_svg s0).2) !! ax =
    axes (world s0) !! ax.
Proof.
  intros Ha Hl.
  destruct (for_safe l PanelMosaic.connect_svg
    (λ s, self s = self s0 ∧ axes (world s) !! ax = axes (world s0) !! ax)
    (λ _, True) s0) as [HI _]; [done | done | | done].
  intros label s Hin (Hself & Hax). split; [| done].
  rewrite connect_svg_cases, Hself, Ha.
  destruct (dict_get label a) as [ax'|] eqn:Hget; [| done]. cbn.
  split; [done |]. rewrite <- Hax.
  apply list_lookup_alter_ne. intros ->. by apply (Hl label).
Qed.

(** Both loops keep the instance, whatever they end in. *)
Lemma draw_loop_self lib (l : dict string) s0 :
  self (for_ l (PanelMosaic.draw_png lib) s0).2 = self s0.
Proof.
  destruct (for_safe l (PanelMosaic.draw_png lib) (λ s, self s = self s0)
              (λ _, True) s0) as [HI _]; [done | done | | done].
  intros [label path] s _ Hself. split; [| done]. rewrite draw_png_cases.
  destruct (dict_get path (files (world s))); [| done].
  destruct (axs (self s)) as [a|]; [| done].
  by destruct (dict_get label a).
Qed.

Lemma connect_loop_self (l : list string) s0 :
  self (for_ l PanelMosaic.connect_svg s0).2 = self s0.
Proof.
  destruct (for_safe l PanelMosaic.connect_svg (λ s, self s = self s0)
              (λ _, True) s0) as [HI _]; [done | done | | done].
  intros label s _ Hself. split; [| done]. rewrite connect_svg_cases.
  destruct (axs (self s)) as [a|]; [| done].
  by destruct (dict_get label a).
Qed.

(** ** [map] does not look at [self.panel_mapping] *)

Lemma oblivious_bind {A B} (m : M A) (k : A → M B) :
  oblivious m → (∀ a, oblivious (k a)) → oblivious (bind m k).
Proof.
  intros Hm Hk v st. unfold bind. rewrite Hm.
  destruct (m st) as [[a|e] st']; cbn; [apply Hk | done].
Qed.

Lemma oblivious_for {A} (l : list A) (body : A → M unit) :
  (∀ x, oblivious (body x)) → oblivious (for_ l body).
Proof.
  intros Hbody. induction l as [|x l IH]; simpl; [done |].
  apply oblivious_bind; [apply Hbody | by intros _].
Qed.

Lemma oblivious_draw_png lib entry : oblivious (PanelMosaic.draw_png lib entry).
Proof.
  destruct entry as [label path]. intros v st. rewrite !draw_png_cases. cbn.
  destruct (dict_get path (files (world st))); [| done].
  destruct (axs (self st)) as [a|]; [| done].
  by destruct (dict_get label a).
Qed.

Lemma oblivious_connect_svg label : oblivious (PanelMosaic.connect_svg label).
Proof.
  intros v st. rewrite !connect_svg_cases. cbn.
  destruct (axs (self st)) as [a|]; [| done].
  by destruct (dict_get label a).
Qed.

(** Two mappings with the same [.png] and the same [.svg] entries make
    [map] do the same, up to what it records in [self.panel_mapping]. *)
Lemma map_same_filters lib pm pm' st :
  by_suffix ".png" pm = by_suffix ".png" pm' →
  by_suffix ".svg" pm = by_suffix ".svg" pm' →
  PanelMosaic.map lib pm st =
  ((PanelMosaic.map lib pm' st).1,
   with_panel_mapping (Some pm) (PanelMosaic.map lib pm' st).2).
Proof.
  intros Epng Esvg. unfold PanelMosaic.map. rewrite Epng, Esvg.
  set (rest := λ _ : unit, bind _ _).
  assert (oblivious (rest tt)) as Hrest.
  { unfold rest. apply oblivious_bind; [done | intros _].
    apply oblivious_bind; [apply oblivious_for, oblivious_draw_png | intros _].
    apply oblivious_bind; [done | intros _].
    apply oblivious_bind; [apply oblivious_for, oblivious_connect_svg | intros _].
    apply oblivious_bind; [done | by intros w]. }
  unfold bind, setattr. cbv beta iota.
  change {| self := set_panel_mapping (Some pm) (self st); world := world st |}
    with (with_panel_mapping (Some pm)
            {| self := set_panel_mapping (Some pm') (self st); world := world st |}).
  apply Hrest.
Qed.

(** C8. An entry whose path ends with neither [.png] nor [.svg]: [map]
    records it in [self.panel_mapping], keeps it out of both
    [png_panel_mapping] and [svg_panel_mapping], leaves the axes of its
    panel as it was, and ends as it would without the entry; a mapping of
    such entries only makes [map] return. *)
Theorem map_ignores_other_suffixes lib pm st label path :
  is_dict pm → (label, path) ∈ pm → known_suffix path = false →
  ∃ o st',
    PanelMosaic.map lib pm st = (o, st') ∧
    panel_mapping (self st') = Some (Some pm) ∧
    png_panel_mapping (self st') = Some (by_suffix ".png" pm) ∧
    (label ∉ keys (by_suffix ".png" pm)) ∧
    (o = Ok tt → svg_panel_mapping (self st') = Some (by_suffix ".svg" pm)) ∧
    (label ∉ keys (by_suffix ".svg" pm)) ∧
    (constructed st → ∀ ax, dict_get label (panels st) = Some ax →
       axes (world st') !! ax = axes (world st) !! ax) ∧
    (∃ st'',
       PanelMosaic.map lib (filter (λ e, known_suffix e.2 = true) pm) st = (o, st'') ∧
       st' = with_panel_mapping (Some pm) st'') ∧
    ((∀ e, e ∈ pm → known_suffix e.2 = false) → o = Ok tt).
Proof.
  intros Hd Hin Hk.
  apply orb_false_elim in Hk as [Epng Esvg].
  pose proof (by_suffix_not_key ".png" pm label path Hd Hin Epng) as Hnpng.
  pose proof (by_suffix_not_key ".svg" pm label path Hd Hin Esvg) as Hnsvg.
  exists (PanelMosaic.map lib pm st).1, (PanelMosaic.map lib pm st).2.
  split; [by destruct (PanelMosaic.map lib pm st) |].
  set (s1 := {| self := set_png_panel_mapping (by_suffix ".png" pm)
                         (set_panel_mapping (Some pm) (self st));
                world := world st |}).
  pose proof (draw_loop_self lib (by_suffix ".png" pm) s1) as Hself2.
  assert (∀ s2, self s2 = self s1 →
            self (for_ (keys (by_suffix ".svg" pm)) PanelMosaic.connect_svg
                    {| self := set_svg_panel_mapping (by_suffix ".svg" pm) (self s2);
                       world := world s2 |}).2 =
            set_svg_panel_mapping (by_suffix ".svg" pm) (self s1)) as Hself4.
  { intros s2 Hs2. rewrite connect_loop_self. cbn. by rewrite Hs2. }
  split_and!.
  - rewrite map_unfold. fold s1.
    destruct (for_ _ _ s1) as [[[]|e] s2]; cbn in *; [| by rewrite Hself2].
    specialize (Hself4 s2 Hself2).
    destruct (for_ _ _ _) as [[[]|e] s4]; cbn in *; by rewrite Hself4.
  - rewrite map_unfold. fold s1.
    destruct (for_ _ _ s1) as [[[]|e] s2]; cbn in *; [| by rewrite Hself2].
    specialize (Hself4 s2 Hself2).
    destruct (for_ _ _ _) as [[[]|e] s4]; cbn in *; by rewrite Hself4.
  - done.
  - rewrite map_unfold. fold s1.
    destruct (for_ _ _ s1) as [[[]|e] s2]; cbn in *; [| done].
    specialize (Hself4 s2 Hself2).
    destruct (for_ _ _ _) as [[[]|e] s4]; cbn in *; [| done].
    intros _. by rewrite Hself4.
  - done.
  - intros Hc ax Hax.
    destruct (constructed_panels st Hc) as (Haxs & _ & _ & Hr & Hlt).
    assert (ax < length (axes (world st))) as Hlt_ax.
    { apply (Hlt label). by apply dict_get_elem. }
    assert (∀ label', label' ∈ keys (by_suffix ".png" pm) ∨
                      label' ∈ keys (by_suffix ".svg" pm) →
                      dict_get label' (panels st) ≠ Some ax) as Hother.
    { intros label' Hkey Hax'.
      assert (label' = label) as -> by (by apply (dict_get_inj _ _ ax (panels st))).
      by destruct Hkey. }
    destruct (draw_loop_frame lib (by_suffix ".png" pm) (panels st) ax s1)
      as (_ & Hlen2 & Hax2); [done | done | |].
    { intros label' path' Hin'. apply Hother. left.
      by apply (list_elem_of_fmap_2 fst) in Hin'. }
    rewrite map_unfold. fold s1.
    destruct (for_ _ _ s1) as [[[]|e] s2]; cbn in *; [| done].
    destruct (connect_loop_frame (keys (by_suffix ".svg" pm)) (panels st) ax
                {| self := set_svg_panel_mapping (by_suffix ".svg" pm) (self s2);
                   world := world s2 |}) as (_ & Hax4).
    { cbn. by rewrite Hself2. }
    { intros label' Hin'. apply Hother. by right. }
    destruct (for_ _ _ _) as [[[]|e] s4]; cbn in *; by rewrite Hax4.
  - exists (PanelMosaic.map lib (filter (λ e, known_suffix e.2 = true) pm) st).2.
    rewrite (map_same_filters lib pm (filter (λ e, known_suffix e.2 = true) pm) st)
      by (apply by_suffix_known; tauto).
    split; [| done]. by destruct (PanelMosaic.map lib _ st).
  - intros Hall.
    assert (∀ suffix, suffix = ".png" ∨ suffix = ".svg" →
              by_suffix suffix pm = []) as Hempty.
    { intros suffix Hs. destruct (by_suffix suffix pm) as [|[l p] d] eqn:E; [done |].
      assert ((l, p) ∈ by_suffix suffix pm) as Hlp by (rewrite E; left).
      apply by_suffix_elem in Hlp as [Es Hlp]. specialize (Hall _ Hlp). cbn in Hall.
      apply orb_false_elim in Hall as [E1 E2]. destruct Hs as [-> | ->]; congruence. }
    rewrite map_unfold, !Hempty by tauto. done.
Qed.

Lemma map_ignores_other_suffixes_witness :
  is_dict [("A", "c.jpg"); ("B", "b.svg")] ∧
  known_suffix "c.jpg" = false ∧
  ∃ st', PanelMosaic.map Demo.lib [("A", "c.jpg"); ("B", "b.svg")] Demo.st_AB
           = (Ok tt, st') ∧
    panel_mapping (self st') = Some (Some [("A", "c.jpg"); ("B", "b.svg")]) ∧
    png_panel_mapping (self st') = Some [] ∧
    svg_panel_mapping (self st') = Some [("B", "b.svg")] ∧
    axes (world st') !! 0 = axes (world Demo.st_AB) !! 0.
Proof.
  assert (is_dict [("A", "c.jpg"); ("B", "b.svg")]) as Hd by by_evaluation.
  assert (constructed Demo.st_AB) as Hc by by_evaluation.
  split; [exact Hd |]. split; [reflexivity |].
  destruct (map_ignores_other_suffixes Demo.lib [("A", "c.jpg"); ("B", "b.svg")]
              Demo.st_AB "A" "c.jpg" Hd)
    as (o & st' & E & Hpm & Hpng & _ & Hsvg & _ & Hax & _); [left | reflexivity |].
  assert (o = Ok tt) as ->.
  { replace o with
      (PanelMosaic.map Demo.lib [("A", "c.jpg"); ("B", "b.svg")] Demo.st_AB).1
      by (by rewrite E).
    reflexivity. }
  exists st'. split; [exact E |]. split_and!.
  - exact Hpm.
  - exact Hpng.
  - exact (Hsvg eq_refl).
  - exact (Hax Hc 0 eq_refl).
Defined.

(** ** [write] on a [str] *)






(** ** The invariant *)

(** [PanelMosaic(...)] with the default [gridspec_kw] returns a constructed
    instance whose panels are the labels of the mosaic. *)
Theorem new_is_constructed lib mosaic figsize layout st :
  ∃ st', PanelMosaic.new lib mosaic figsize layout None st = (Ok tt, st') ∧
    constructed st' ∧
    keys (panels st') = remove_dups (plt_mosaic_labels lib mosaic) ∧
    panel_mapping (self st') = Some None ∧
    interactive (world st') = true.
Proof.
  destruct (new_default lib mosaic figsize layout st) as (st' & E & _ & Hk & Hc).
  exists st'. split_and!; try done.
  - replace st' with (PanelMosaic.new lib mosaic figsize layout None st).2
      by (by rewrite E). reflexivity.
  - replace st' with (PanelMosaic.new lib mosaic figsize layout None st).2
      by (by rewrite E). reflexivity.
Qed.

(** * More of the program *)

(** ** More on dicts, suffixes and loops *)




(** A path ends with at most one of the two suffixes. *)
Lemma endswith_png_not_svg (path : string) :
  endswith path ".png" = true → endswith path ".svg" = false.
Proof.
  unfold endswith.
  change (String.length ".png") with 4. change (String.length ".svg") with 4.
  destruct (Nat.leb 4 (String.length path)); [| done]. simpl andb.
  by destruct (String.eqb_spec (substring (String.length path - 4) 4 path) ".png")
    as [->|].
Qed.

(** A loop over two lists, one after the other. *)
Lemma for_app {A} (l1 l2 : list A) (body : A → M unit) (st : State) :
  for_ (l1 ++ l2) body st =
  match for_ l1 body st with
  | (Ok _, st') => for_ l2 body st'
  | (Raise e, st') => (Raise e, st')
  end.
Proof.
  revert st. induction l1 as [|x l1 IH]; simpl; intros st; [done |].
  unfold bind. destruct (body x st) as [[[]|e] st']; [apply IH | done].
Qed.

(** When a loop returns, each of its turns returned, in a state the
    turns before it had left. *)
Lemma for_ok_each {A} (l : list A) (body : A → M unit) (I : State → Prop)
    (st : State) :
  I st → (∀ x st, I st → I (body x st).2) →
  (for_ l body st).1 = Ok tt →
  ∀ x, x ∈ l → ∃ s, I s ∧ (body x s).1 = Ok tt.
Proof.
  intros Hst Hkeep. revert st Hst. induction l as [|y l IH]; simpl; intros st Hst Hok x Hx.
  - by apply elem_of_nil in Hx.
  - unfold bind in Hok. pose proof (Hkeep y st Hst) as Hy.
    destruct (body y st) as [[[]|e] st'] eqn:E; [| done]. cbn in Hy.
    apply elem_of_cons in Hx as [->|Hx].
    + exists st. by rewrite E.
    + by apply (IH st').
Qed.

(** ** Construction, when it fails *)

(** With a [gridspec_kw] that is not [None], [PanelMosaic(...)] raises
    after [plt.ioff()] and before [plt.ion()]: pyplot is left
    non-interactive, whatever it was. No figure and no axes were made, no
    file was touched, and the instance has neither [fig], [axs] nor [svg]. *)
Theorem failed_construction_leaves_pyplot_off lib mosaic figsize layout kw st :
  ∃ st',
    PanelMosaic.new lib mosaic figsize layout (Some kw) st =
      (Raise (AttributeError "gridspec_kw"), st') ∧
    interactive (world st') = false ∧
    figures (world st') = figures (world st) ∧
    axes (world st') = axes (world st) ∧
    files (world st') = files (world st) ∧
    fig (self st') = None ∧ axs (self st') = None ∧ svg (self st') = None.
Proof. eexists. split; [apply new_gridspec_kw_state |]. by split_and!. Qed.

(** ** [write], the other cases *)


(** A [Path] is refused only through [write_svg]: when ["svg"] is not among
    the formats, [write] does on a [Path] what it does on the [str] of it. *)
Theorem write_Path_without_svg lib p formats st :
  py_in "svg" formats = false →
  PanelMosaic.write lib (PPath p) formats st =
  PanelMosaic.write lib (PStr p) formats st.
Proof.
  intros H. unfold PanelMosaic.write, bind. rewrite H. cbn.
  by destruct (py_in "pdf" formats).
Qed.

Lemma write_Path_without_svg_witness :
  py_in "svg" ["pdf"; "png"] = false ∧
  (PanelMosaic.write Demo.lib (PPath "fig") ["pdf"; "png"] Demo.st_AB).1 = Ok tt ∧
  files (world (PanelMosaic.write Demo.lib (PPath "fig") ["pdf"; "png"] Demo.st_AB).2) =
    [("a.png", "PNG"); ("fig.pdf", "%PDF <svg/>")].
Proof.
  split; [reflexivity |].
  rewrite (write_Path_without_svg Demo.lib "fig" ["pdf"; "png"] Demo.st_AB eq_refl).
  split; reflexivity.
Defined.



(** ** The two filters of [map] together *)

(** On a dict the two filters keep the entries in the order of the mapping,
    are dicts themselves, share no label, and leave out exactly the entries
    whose path ends with neither suffix. *)
Theorem map_filters_partition (pm : dict string) :
  is_dict pm →
  by_suffix ".png" pm = filter (λ e, endswith e.2 ".png" = true) pm ∧
  by_suffix ".svg" pm = filter (λ e, endswith e.2 ".svg" = true) pm ∧
  is_dict (by_suffix ".png" pm) ∧ is_dict (by_suffix ".svg" pm) ∧
  (∀ label, label ∈ keys (by_suffix ".png" pm) →
            label ∉ keys (by_suffix ".svg" pm)) ∧
  (∀ label path, (label, path) ∈ pm →
     ((label, path) ∈ by_suffix ".png" pm ∧ known_suffix path = true) ∨
     ((label, path) ∈ by_suffix ".svg" pm ∧ known_suffix path = true) ∨
     (known_suffix path = false ∧
      (label ∉ keys (by_suffix ".png" pm)) ∧ (label ∉ keys (by_suffix ".svg" pm)))).
Proof.
  intros Hd. split_and!.
  - by apply by_suffix_dict.
  - by apply by_suffix_dict.
  - by apply by_suffix_is_dict.
  - by apply by_suffix_is_dict.
  - intros label Hpng Hsvg.
    apply by_suffix_keys in Hpng as (p1 & E1 & H1).
    apply by_suffix_keys in Hsvg as (p2 & E2 & H2).
    apply (elem_dict_get _ _ _ Hd) in H1, H2.
    assert (p1 = p2) as -> by congruence.
    apply endswith_png_not_svg in E1. congruence.
  - intros label path Hin. unfold known_suffix.
    destruct (endswith path ".png") eqn:E1; [left |].
    { split; [by apply by_suffix_elem_dict | done]. }
    destruct (endswith path ".svg") eqn:E2; [right; left | right; right].
    { split; [by apply by_suffix_elem_dict | done]. }
    split_and!; [done | |]; by apply (by_suffix_not_key _ _ label path).
Qed.

Lemma map_filters_partition_witness :
  is_dict [("A", "a.png"); ("B", "b.svg"); ("C", "c.jpg"); ("D", ".png")] ∧
  by_suffix ".png" [("A", "a.png"); ("B", "b.svg"); ("C", "c.jpg"); ("D", ".png")]
    = [("A", "a.png"); ("D", ".png")] ∧
  by_suffix ".svg" [("A", "a.png"); ("B", "b.svg"); ("C", "c.jpg"); ("D", ".png")]
    = [("B", "b.svg")].
Proof.
  assert (is_dict [("A", "a.png"); ("B", "b.svg"); ("C", "c.jpg"); ("D", ".png")])
    as Hd by by_evaluation.
  split; [exact Hd |].
  destruct (map_filters_partition _ Hd) as (E1 & E2 & _).
  rewrite E1, E2. split; reflexivity.
Defined.

(** ** The loops, exactly *)

(** [_label_axes] on any dict of distinct axes. *)
Lemma _label_axes_effect (a : dict nat) fontsize label_pos ha va st :
  NoDup a.*2 →
  ∃ st', _label_axes a fontsize label_pos ha va st = (Ok tt, st') ∧
    self st' = self st ∧
    world st' = set_axes (axes (world st')) (world st) ∧
    length (axes (world st')) = length (axes (world st)) ∧
    (∀ label ax, (label, ax) ∈ a →
       axes (world st') !! ax =
       labelled label fontsize label_pos ha va <$> axes (world st) !! ax) ∧
    (∀ i, i ∉ a.*2 → axes (world st') !! i = axes (world st) !! i).
Proof.
  intros Hnd. unfold _label_axes.
  destruct (for_update a snd (λ x, labelled x.1 fontsize label_pos ha va)
              (λ '(label, ax),
                 Axes_autoscale ax false ;;
                 Axes_text ax
                   {| text_x := label_pos.1; text_y := label_pos.2;
                      text_s := label +:+ "";
                      text_horizontalalignment := ha; text_verticalalignment := va;
                      text_transform := transAxes; text_fontsize := fontsize;
                      text_clip_on := false |} ;;
                 Axes_set ax [] [])
              (λ _, True) st I)
    as (st' & E & Hs & Hw & Hlen & Hin & Hout); [| done |].
  { intros [label ax] s _ _. apply _label_axes_turn. }
  exists st'. split_and!; try done.
  intros label ax Hp. by specialize (Hin (label, ax) Hp).
Qed.

Lemma format_axes_effect (panel_borders : bool) (a : dict nat) st :
  axs (self st) = Some a → NoDup a.*2 →
  ∃ st', PanelMosaic.format_axes panel_borders st = (Ok tt, st') ∧
    self st' = self st ∧
    world st' = set_axes (axes (world st')) (world st) ∧
    length (axes (world st')) = length (axes (world st)) ∧
    (∀ label ax, (label, ax) ∈ a →
       axes (world st') !! ax =
       (if panel_borders then id else axis_off) <$> axes (world st) !! ax) ∧
    (∀ i, i ∉ a.*2 → axes (world st') !! i = axes (world st) !! i).
Proof.
  intros Ha Hnd. unfold PanelMosaic.format_axes, bind, getattr. rewrite Ha.
  destruct (for_update a snd (λ _, if panel_borders then id else axis_off)
              (λ '(_, ax), if negb panel_borders then Axes_axis_off ax else ret tt)
              (λ _, True) st I)
    as (st' & E & Hs & Hw & Hlen & Hin & Hout); [| done |].
  { intros [label ax] s _ _. destruct panel_borders; cbn; [| done].
    unfold ret, altered. rewrite list_alter_id by done.
    destruct s as [o w]. by destruct w. }
  exists st'. split_and!; try done.
  intros label ax Hp. by specialize (Hin (label, ax) Hp).
Qed.

(** The first loop of [map] on a dict of entries whose labels are panels
    and whose files exist: the [k]-th entry gets the [k]-th new axes of the
    store as the inset of its panel, and nothing else changes. *)
Lemma draw_loop_exact lib (a : dict nat) (n0 : nat) (l : dict string) :
  NoDup a.*2 →
  (∀ label ax, dict_get label a = Some ax → ax < n0) →
  ∀ s0,
  axs (self s0) = Some a →
  is_dict l →
  n0 ≤ length (axes (world s0)) →
  (∀ label path, (label, path) ∈ l →
     is_Some (dict_get label a) ∧
     is_Some (dict_get path (files (world s0)))) →
  ∃ s, for_ l (PanelMosaic.draw_png lib) s0 = (Ok tt, s) ∧
    self s = self s0 ∧
    world s = set_axes (axes (world s)) (world s0) ∧
    length (axes (world s)) = length (axes (world s0)) + length l ∧
    (∀ k label path, l !! k = Some (label, path) →
       ∃ ax data,
         dict_get label a = Some ax ∧
         dict_get path (files (world s0)) = Some data ∧
         axes (world s) !! ax =
           add_child (length (axes (world s0)) + k) <$> axes (world s0) !! ax ∧
         axes (world s) !! (length (axes (world s0)) + k) =
           Some (png_inset (plt_imread lib data))) ∧
    (∀ i, i < length (axes (world s0)) →
       (∀ label path, (label, path) ∈ l → dict_get label a ≠ Some i) →
       axes (world s) !! i = axes (world s0) !! i).
Proof.
  intros Hnd Hlt. induction l as [|[label path] l IH]; intros s0 Ha Hd Hn0 Hl.
  - exists s0. simpl.
    split_and!; first [done | apply world_set_axes_same | lia].
  - unfold is_dict, keys in Hd. cbn in Hd. apply NoDup_cons in Hd as [Hlabel Hd].
    destruct (Hl label path) as [[ax Hax] [data Hdata]]; [left |].
    pose proof (Hlt label ax Hax) as Hax_lt.
    cbn [for_]. unfold bind. rewrite draw_png_cases, Hdata, Ha, Hax.
    set (m0 := length (axes (world s0))) in *.
    set (s1 := {| self := self s0; world := _ |}).
    assert (length (axes (world s1)) = m0 + 1) as Hlen1.
    { cbn. by rewrite length_app, length_alter. }
    destruct (IH s1) as (s & E & Hself & Hworld & Hlen & Hin & Hout);
      [done | done | lia | |].
    { intros label' path' Hin'. apply Hl. by right. }
    assert (∀ i, i < m0 → i ≠ ax → axes (world s1) !! i = axes (world s0) !! i)
      as Hother1.
    { intros i Hi Hne. cbn. rewrite lookup_app_l by (rewrite length_alter; lia).
      by apply list_lookup_alter_ne. }
    assert (∀ label' path' ax', (label', path') ∈ l →
              dict_get label' a = Some ax' → ax' ≠ ax) as Hdistinct.
    { intros label' path' ax' Hin' Hax' ->.
      assert (label' = label) as -> by (by apply (dict_get_inj _ _ ax a)).
      apply Hlabel. by apply (list_elem_of_fmap_2 fst) in Hin'. }
    exists s. split_and!; try done.
    + rewrite Hlen, Hlen1. simpl. lia.
    + intros [|k] label' path' Hk.
      * injection Hk as <- <-. exists ax, data. split_and!; try done.
        -- rewrite Hout.
           ++ rewrite Nat.add_0_r. cbn.
              rewrite lookup_app_l by (rewrite length_alter; lia).
              apply list_lookup_alter_eq.
           ++ lia.
           ++ intros label' path' Hin' Hax'. by apply (Hdistinct label' path' ax).
        -- rewrite Hout.
           ++ rewrite Nat.add_0_r. cbn.
              rewrite lookup_app_r by (rewrite length_alter; lia).
              by rewrite length_alter, Nat.sub_diag.
           ++ lia.
           ++ intros label' path' Hin' Hax'.
              apply Hlt in Hax'. fold m0 in Hax'. lia.
      * cbn in Hk. destruct (Hin k label' path' Hk) as (ax' & data' & Hax' & Hd' & Hc & Hi).
        exists ax', data'. split_and!; try done.
        -- rewrite Hc, Hlen1. replace (m0 + S k) with (m0 + 1 + k) by lia.
           f_equal. apply Hother1; [by apply Hlt in Hax'; lia |].
           apply (Hdistinct label' path'); [| done].
           by apply list_elem_of_lookup_2 in Hk.
        -- rewrite <- Hi, Hlen1. f_equal. lia.
    + intros i Hi Hnot. rewrite Hout.
      * apply Hother1; [done |]. intros ->. by apply (Hnot label path); [left |].
      * lia.
      * intros label' path' Hin'. apply (Hnot label' path'). by right.
Qed.

(** The second loop of [map] over distinct labels that are panels. *)
Lemma connect_loop_exact (a : dict nat) (l : list string) s0 :
  axs (self s0) = Some a → NoDup a.*2 → NoDup l →
  (∀ label, label ∈ l → is_Some (dict_get label a)) →
  ∃ s, for_ l PanelMosaic.connect_svg s0 = (Ok tt, s) ∧
    self s = self s0 ∧
    world s = set_axes (axes (world s)) (world s0) ∧
    length (axes (world s)) = length (axes (world s0)) ∧
    (∀ label ax, label ∈ l → dict_get label a = Some ax →
       axes (world s) !! ax = add_artist label <$> axes (world s0) !! ax) ∧
    (∀ i, (∀ label, label ∈ l → dict_get label a ≠ Some i) →
       axes (world s) !! i = axes (world s0) !! i).
Proof.
  intros Ha Hnd Hl Hin.
  destruct (for_update l (λ label, default 0 (dict_get label a)) add_artist
              PanelMosaic.connect_svg (λ o, axs o = Some a) s0 Ha)
    as (s & E & Hs & Hw & Hlen & Hon & Hoff).
  { intros label s Hlabel Hs. rewrite connect_svg_cases, Hs.
    by destruct (Hin label Hlabel) as [ax ->]. }
  { apply NoDup_fmap_2_strong; [| done].
    intros x y Hx Hy. destruct (Hin x Hx) as [ax Hax], (Hin y Hy) as [ay Hay].
    rewrite Hax, Hay. cbn. intros ->. by apply (dict_get_inj _ _ ay a). }
  exists s. split_and!; try done.
  - intros label ax Hlabel Hax. specialize (Hon label Hlabel). by rewrite Hax in Hon.
  - intros i Hi. apply Hoff. intros Hmem.
    apply list_elem_of_fmap_1 in Hmem as (label & -> & Hlabel).
    destruct (Hin label Hlabel) as [ax Hax]. apply (Hi label Hlabel).
    by rewrite Hax.
Qed.

(** ** [map], exactly *)

(** What a returning [map] leaves, axes by axes. *)
Lemma map_effect lib pm st :
  constructed st → is_dict pm →
  (∀ label, label ∈ keys pm → label ∈ keys (panels st)) →
  (∀ label path, (label, path) ∈ pm → endswith path ".png" = true →
     is_Some (dict_get path (files (world st)))) →
  ∃ st', PanelMosaic.map lib pm st = (Ok tt, st') ∧
    self st' =
      set_svg (skunk_insert lib (by_suffix ".svg" pm) (world st'))
        (set_svg_panel_mapping (by_suffix ".svg" pm)
           (set_png_panel_mapping (by_suffix ".png" pm)
              (set_panel_mapping (Some pm) (self st)))) ∧
    constructed st' ∧
    world st' = set_axes (axes (world st')) (world st) ∧
    length (axes (world st')) =
      length (axes (world st)) + length (by_suffix ".png" pm) ∧
    (∀ k label path, by_suffix ".png" pm !! k = Some (label, path) →
       ∃ ax data,
         dict_get label (panels st) = Some ax ∧
         dict_get path (files (world st)) = Some data ∧
         axes (world st') !! ax =
           add_child (length (axes (world st)) + k) <$> axes (world st) !! ax ∧
         axes (world st') !! (length (axes (world st)) + k) =
           Some (png_inset (plt_imread lib data))) ∧
    (∀ label ax, label ∈ keys (by_suffix ".svg" pm) →
       dict_get label (panels st) = Some ax →
       axes (world st') !! ax = add_artist label <$> axes (world st) !! ax) ∧
    (∀ i, i < length (axes (world st)) →
       (∀ label, label ∈ keys (by_suffix ".png" pm) ∨
                 label ∈ keys (by_suffix ".svg" pm) →
                 dict_get label (panels st) ≠ Some i) →
       axes (world st') !! i = axes (world st) !! i).
Proof.
  intros Hc Hd Hlabels Hfiles.
  destruct (constructed_panels st Hc) as (Haxs & Hsvg & Hk & Hr & Hlt).
  set (n0 := length (axes (world st))).
  set (pngs := by_suffix ".png" pm). set (svgs := by_suffix ".svg" pm).
  assert (∀ label ax, dict_get label (panels st) = Some ax → ax < n0) as Hlt'.
  { intros label ax Hget. apply (Hlt label). by apply dict_get_elem. }
  assert (∀ label, label ∈ keys pngs ∨ label ∈ keys svgs →
                   is_Some (dict_get label (panels st))) as Hpanel.
  { intros label Hin. apply dict_get_is_Some, Hlabels.
    destruct Hin as [Hin|Hin]; apply by_suffix_keys in Hin as (path & _ & Hin);
      by apply (list_elem_of_fmap_2 fst) in Hin. }
  assert (∀ label, label ∈ keys pngs → label ∉ keys svgs) as Hdisj.
  { intros label Hpng Hsvg'.
    apply by_suffix_keys in Hpng as (p1 & E1 & H1).
    apply by_suffix_keys in Hsvg' as (p2 & E2 & H2).
    apply (elem_dict_get _ _ _ Hd) in H1, H2.
    assert (p1 = p2) as -> by congruence.
    apply endswith_png_not_svg in E1. congruence. }
  rewrite map_unfold. fold pngs svgs.
  destruct (draw_loop_exact lib (panels st) n0 pngs Hr Hlt'
              {| self := set_png_panel_mapping pngs
                           (set_panel_mapping (Some pm) (self st));
                 world := world st |})
    as (s2 & E2 & Hself2 & Hworld2 & Hlen2 & Hin2 & Hout2);
    [done | by apply by_suffix_is_dict | done | |].
  { intros label path Hin. split.
    - apply Hpanel. left. by apply (list_elem_of_fmap_2 fst) in Hin.
    - apply by_suffix_elem in Hin as [E Hin]. by apply (Hfiles label). }
  rewrite E2. cbn in Hworld2, Hlen2, Hin2, Hout2. fold n0 in Hlen2, Hin2, Hout2.
  destruct (connect_loop_exact (panels st) (keys svgs)
              {| self := set_svg_panel_mapping svgs (self s2); world := world s2 |})
    as (s4 & E4 & Hself4 & Hworld4 & Hlen4 & Hin4 & Hout4);
    [by cbn; rewrite Hself2 | done | by apply by_suffix_is_dict | |].
  { intros label Hin. apply Hpanel. by right. }
  rewrite E4. cbn in Hworld4, Hlen4, Hin4, Hout4.
  eexists. split; [reflexivity |]. cbn.
  assert (∀ label ax, label ∈ keys pngs → dict_get label (panels st) = Some ax →
            axes (world s4) !! ax = axes (world s2) !! ax) as Hpng4.
  { intros label ax Hpng Hax. apply Hout4. intros label' Hsvg' Hax'.
    assert (label' = label) as -> by (by apply (dict_get_inj _ _ ax (panels st))).
    by apply (Hdisj label). }
  assert (∀ label ax, label ∉ keys pngs → dict_get label (panels st) = Some ax →
            axes (world s2) !! ax = axes (world st) !! ax) as Hsvg2.
  { intros label ax Hnpng Hax. apply Hout2; [by apply (Hlt' label) |].
    intros label' path' Hin' Hax'.
    assert (label' = label) as -> by (by apply (dict_get_inj _ _ ax (panels st))).
    apply Hnpng. by apply (list_elem_of_fmap_2 fst) in Hin'. }
  split_and!.
  - by rewrite Hself4; cbn; rewrite Hself2.
  - apply (constructed_intro _ (panels st)); cbn.
    + by rewrite Hself4; cbn; rewrite Hself2.
    + by eexists.
    + done.
    + done.
    + intros label ax Hin. specialize (Hlt label ax Hin). fold n0 in Hlt. lia.
  - rewrite Hworld4, Hworld2. reflexivity.
  - lia.
  - intros k label path Hkth.
    destruct (Hin2 k label path Hkth) as (ax & data & Hax & Hdata & Hc2 & Hi2).
    exists ax, data. split_and!; try done.
    + rewrite <- Hc2. apply (Hpng4 label); [| done].
      apply list_elem_of_lookup_2 in Hkth. by apply (list_elem_of_fmap_2 fst) in Hkth.
    + rewrite <- Hi2. apply Hout4. intros label' Hsvg' Hax'.
      apply Hlt' in Hax'. lia.
  - intros label ax Hsvg' Hax. rewrite (Hin4 label ax Hsvg' Hax). f_equal.
    apply (Hsvg2 label); [| done]. intros Hpng. by apply (Hdisj label).
  - intros i Hi Hnot. rewrite Hout4.
    + apply Hout2; [done |]. intros label path Hin. apply Hnot. left.
      by apply (list_elem_of_fmap_2 fst) in Hin.
    + intros label Hsvg'. apply Hnot. by right.
Qed.

(** The axes of a panel, before and after a returning [map]. *)
Lemma map_panel_effect lib pm st :
  constructed st → is_dict pm →
  (∀ label, label ∈ keys pm → label ∈ keys (panels st)) →
  (∀ label path, (label, path) ∈ pm → endswith path ".png" = true →
     is_Some (dict_get path (files (world st)))) →
  ∃ st', PanelMosaic.map lib pm st = (Ok tt, st') ∧
    world st' = set_axes (axes (world st')) (world st) ∧
    length (axes (world st')) =
      length (axes (world st)) + length (by_suffix ".png" pm) ∧
    ∀ label ax, (label, ax) ∈ panels st →
      ∃ a a', axes (world st) !! ax = Some a ∧ axes (world st') !! ax = Some a' ∧
        ax_texts a' = ax_texts a ∧ ax_autoscale_on a' = ax_autoscale_on a ∧
        ax_xticks a' = ax_xticks a ∧ ax_yticks a' = ax_yticks a ∧
        ax_axison a' = ax_axison a ∧ ax_images a' = ax_images a ∧
        ax_inset a' = ax_inset a ∧ ax_zorder a' = ax_zorder a ∧
        (∀ k path, by_suffix ".png" pm !! k = Some (label, path) →
           ax_child_axes a' = ax_child_axes a ++ [length (axes (world st)) + k]) ∧
        (label ∉ keys (by_suffix ".png" pm) → ax_child_axes a' = ax_child_axes a) ∧
        (label ∈ keys (by_suffix ".svg" pm) → ax_artists a' = ax_artists a ++ [label]) ∧
        (label ∉ keys (by_suffix ".svg" pm) → ax_artists a' = ax_artists a).
Proof.
  intros Hc Hd Hlabels Hfiles.
  destruct (map_effect lib pm st Hc Hd Hlabels Hfiles)
    as (st' & E & _ & _ & Hworld & Hlen & Hpng & Hsvg & Hnone).
  destruct (constructed_panels st Hc) as (Haxs & _ & Hk & Hr & Hlt).
  exists st'. split_and!; try done.
  intros label ax Hin. pose proof (elem_dict_get _ _ _ Hk Hin) as Hax.
  destruct (lookup_lt_is_Some_2 (axes (world st)) ax) as [a Ha]; [by apply (Hlt label) |].
  assert (∀ label', dict_get label' (panels st) = Some ax → label' = label) as Huniq.
  { intros label' Hax'. by apply (dict_get_inj _ _ ax (panels st)). }
  destruct (decide (label ∈ keys (by_suffix ".png" pm))) as [Hp|Hp].
  - pose proof Hp as Hp'. apply list_elem_of_fmap_1 in Hp' as ([l p] & -> & Hlp).
    cbn [fst] in *.
    apply list_elem_of_lookup_1 in Hlp as [k Hk'].
    destruct (Hpng k l p Hk') as (ax' & data & Hax' & _ & Hc' & _).
    assert (ax' = ax) as -> by congruence.
    rewrite Ha in Hc'. cbn in Hc'.
    assert (l ∉ keys (by_suffix ".svg" pm)) as Hns.
    { intros Hs. apply by_suffix_keys in Hp as (p1 & E1 & H1).
      apply by_suffix_keys in Hs as (p2 & E2 & H2).
      apply (elem_dict_get _ _ _ Hd) in H1, H2.
      assert (p1 = p2) as -> by congruence.
      apply endswith_png_not_svg in E1. congruence. }
    exists a, (add_child (length (axes (world st)) + k) a).
    split_and!; try done.
    + intros k2 path2 Hk2. cbn.
      assert (k2 = k) as ->; [| done].
      pose proof (by_suffix_is_dict ".png" pm Hd) as Hnd.
      unfold is_dict, keys in Hnd.
      apply (NoDup_lookup _ k2 k l Hnd); rewrite list_lookup_fmap;
        [by rewrite Hk2 | by rewrite Hk'].
  - destruct (decide (label ∈ keys (by_suffix ".svg" pm))) as [Hs|Hs].
    + pose proof (Hsvg label ax Hs Hax) as Ha'. rewrite Ha in Ha'. cbn in Ha'.
      exists a, (add_artist label a). split_and!; try done.
      intros k path Hk'. destruct Hp.
      apply list_elem_of_lookup_2 in Hk'. by apply (list_elem_of_fmap_2 fst) in Hk'.
    + exists a, a. split_and!; try done.
      * rewrite <- Ha. apply Hnone; [by apply (Hlt label) |].
        intros label' Hin' Hax'. apply Huniq in Hax' as ->. by destruct Hin'.
      * intros k path Hk'. destruct Hp.
        apply list_elem_of_lookup_2 in Hk'. by apply (list_elem_of_fmap_2 fst) in Hk'.
Qed.

(** What [map] touches. On a constructed instance, for a dict whose labels
    are panels and whose [.png] files exist, [map] returns; the store has
    one more axes per [.png] entry; pyplot's figures and flag and the files
    are as they were; and on the axes of a panel only the children and the
    artists may differ: one new child when the panel has a [.png] entry,
    none otherwise, one new artist when it has an [.svg] entry, none
    otherwise. Texts, ticks, autoscale, axis and images stay. *)
Theorem map_touches_children_and_artists lib pm st :
  constructed st → is_dict pm →
  (∀ label, label ∈ keys pm → label ∈ keys (panels st)) →
  (∀ label path, (label, path) ∈ pm → endswith path ".png" = true →
     is_Some (dict_get path (files (world st)))) →
  ∃ st', PanelMosaic.map lib pm st = (Ok tt, st') ∧
    world st' = set_axes (axes (world st')) (world st) ∧
    length (axes (world st')) =
      length (axes (world st)) + length (by_suffix ".png" pm) ∧
    ∀ label ax, (label, ax) ∈ panels st →
      ∃ a a', axes (world st) !! ax = Some a ∧ axes (world st') !! ax = Some a' ∧
        ax_texts a' = ax_texts a ∧ ax_autoscale_on a' = ax_autoscale_on a ∧
        ax_xticks a' = ax_xticks a ∧ ax_yticks a' = ax_yticks a ∧
        ax_axison a' = ax_axison a ∧ ax_images a' = ax_images a ∧
        ax_inset a' = ax_inset a ∧ ax_zorder a' = ax_zorder a ∧
        (∀ k path, by_suffix ".png" pm !! k = Some (label, path) →
           ax_child_axes a' = ax_child_axes a ++ [length (axes (world st)) + k]) ∧
        (label ∉ keys (by_suffix ".png" pm) → ax_child_axes a' = ax_child_axes a) ∧
        (label ∈ keys (by_suffix ".svg" pm) → ax_artists a' = ax_artists a ++ [label]) ∧
        (label ∉ keys (by_suffix ".svg" pm) → ax_artists a' = ax_artists a).
Proof. exact (map_panel_effect lib pm st). Qed.

Lemma map_touches_children_and_artists_witness :
  constructed Demo.st_AB ∧
  is_dict [("A", "a.png"); ("B", "b.svg")] ∧
  ∃ st', PanelMosaic.map Demo.lib [("A", "a.png"); ("B", "b.svg")] Demo.st_AB
           = (Ok tt, st') ∧
    length (axes (world st')) = 3 ∧
    (ax_child_axes <$> axes (world st')) = [[2]; []; []] ∧
    (ax_artists <$> axes (world st')) = [[]; ["B"]; []].
Proof.
  assert (constructed Demo.st_AB) as Hc by by_evaluation.
  assert (is_dict [("A", "a.png"); ("B", "b.svg")]) as Hd by by_evaluation.
  split; [exact Hc |]. split; [exact Hd |].
  destruct (map_touches_children_and_artists Demo.lib
              [("A", "a.png"); ("B", "b.svg")] Demo.st_AB Hc Hd)
    as (st' & E & _ & Hlen & _).
  - intros label Hin. vm_compute in Hin. vm_compute.
    apply elem_of_cons in Hin as [->|Hin]; [left |].
    apply elem_of_cons in Hin as [->|Hin]; [right; left |].
    by apply elem_of_nil in Hin.
  - intros label path Hin Epng.
    apply elem_of_cons in Hin as [[= -> ->]|Hin]; [by eexists |].
    apply elem_of_cons in Hin as [[= -> ->]|Hin]; [discriminate Epng |].
    by apply elem_of_nil in Hin.
  - exists st'. split; [exact E |]. split; [exact Hlen |].
    replace st' with
      (PanelMosaic.map Demo.lib [("A", "a.png"); ("B", "b.svg")] Demo.st_AB).2
      by (by rewrite E).
    split; reflexivity.
Defined.

(** ** [map], where it stops *)

(** [map] stops at the first [.png] entry it cannot draw and keeps what it
    drew before: the entries before it have their insets, while [self.svg]
    and [self.svg_panel_mapping] are still the old ones. The entry fails
    with the [FileNotFoundError] of [open] when its file is missing, and
    with [KeyError] when the file is there and the label is no panel. *)
Theorem map_stops_at_first_bad_png lib pm st drawn_before label path rest :
  constructed st →
  by_suffix ".png" pm = drawn_before ++ (label, path) :: rest →
  (∀ l p, (l, p) ∈ drawn_before →
     l ∈ keys (panels st) ∧ is_Some (dict_get p (files (world st)))) →
  dict_get path (files (world st)) = None ∨ label ∉ keys (panels st) →
  ∃ st',
    PanelMosaic.map lib pm st =
      (Raise (match dict_get path (files (world st)) with
              | None => FileNotFoundError path
              | Some _ => KeyError label
              end), st') ∧
    (∀ l p, (l, p) ∈ drawn_before → drawn lib st st' l p) ∧
    panel_mapping (self st') = Some (Some pm) ∧
    png_panel_mapping (self st') = Some (by_suffix ".png" pm) ∧
    svg_panel_mapping (self st') = svg_panel_mapping (self st) ∧
    svg (self st') = svg (self st) ∧
    files (world st') = files (world st).
Proof.
  intros Hc Hsplit Hbefore Hbad.
  destruct (constructed_panels st Hc) as (Haxs & _ & _ & _ & Hlt).
  rewrite map_unfold, Hsplit, for_app.
  destruct (draw_loop lib st drawn_before
              {| self := set_png_panel_mapping (drawn_before ++ (label, path) :: rest)
                           (set_panel_mapping (Some pm) (self st));
                 world := world st |})
    as (s & E & Hself & Hworld & _ & Hdrawn); [done | done | | |].
  { intros l ax Hget. apply (Hlt l). by apply dict_get_elem. }
  { intros l p Hin. destruct (Hbefore l p Hin) as [Hl Hp].
    split; [by apply dict_get_is_Some | done]. }
  rewrite E. cbn [for_]. unfold bind. rewrite draw_png_cases.
  assert (files (world s) = files (world st)) as Hfiles by (by rewrite Hworld).
  rewrite Hfiles, Hself. cbn. rewrite Haxs.
  assert ((∀ l p, (l, p) ∈ drawn_before → drawn lib st s l p) ∧
     panel_mapping (self s) = Some (Some pm) ∧
     png_panel_mapping (self s) = Some (drawn_before ++ (label, path) :: rest) ∧
     svg_panel_mapping (self s) = svg_panel_mapping (self st) ∧
     svg (self s) = svg (self st) ∧
     files (world s) = files (world st)) as Hleft.
  { rewrite Hself. by split_and!. }
  destruct (dict_get path (files (world st))) as [data|] eqn:Hdata.
  - destruct Hbad as [Hbad|Hbad]; [done |].
    apply dict_get_None in Hbad. rewrite Hbad. by exists s.
  - by exists s.
Qed.

Lemma map_stops_at_first_bad_png_witness :
  constructed Demo.st_AB ∧
  ∃ st',
    PanelMosaic.map Demo.lib [("A", "a.png"); ("B", "missing.png")] Demo.st_AB =
      (Raise (FileNotFoundError "missing.png"), st') ∧
    drawn Demo.lib Demo.st_AB st' "A" "a.png".
Proof.
  assert (constructed Demo.st_AB) as Hc by by_evaluation.
  split; [exact Hc |].
  destruct (map_stops_at_first_bad_png Demo.lib [("A", "a.png"); ("B", "missing.png")]
              Demo.st_AB [("A", "a.png")] "B" "missing.png" [] Hc eq_refl)
    as (st' & E & Hdrawn & _).
  - intros l p Hin. apply list_elem_of_singleton in Hin as [= -> ->].
    split; [by_evaluation | by eexists].
  - by left.
  - exists st'. split; [exact E |]. apply Hdrawn. left.
Defined.

(** On a constructed instance and a dict whose labels are panels, [map]
    returns exactly when every [.png] path of the mapping names an existing
    file. *)
Theorem map_returns_iff_png_files_exist lib pm st :
  constructed st → is_dict pm →
  (∀ label, label ∈ keys pm → label ∈ keys (panels st)) →
  (PanelMosaic.map lib pm st).1 = Ok tt ↔
  (∀ label path, (label, path) ∈ pm → endswith path ".png" = true →
     is_Some (dict_get path (files (world st)))).
Proof.
  intros Hc Hd Hlabels. split.
  - intros Hok label path Hin Epng. rewrite map_unfold in Hok.
    destruct (for_ (by_suffix ".png" pm) _ _) as [[[]|e] s2] eqn:E2; [| done].
    destruct (for_ok_each (by_suffix ".png" pm) (PanelMosaic.draw_png lib)
                (λ s, files (world s) = files (world st))
                {| self := set_png_panel_mapping (by_suffix ".png" pm)
                             (set_panel_mapping (Some pm) (self st));
                   world := world st |})
      with (x := (label, path)) as (s & Hs & Hx).
    + done.
    + intros [l p] s Hs. rewrite draw_png_cases.
      destruct (dict_get p (files (world s))); [| done].
      destruct (axs (self s)) as [a|]; [| done].
      by destruct (dict_get l a).
    + by rewrite E2.
    + by apply by_suffix_elem_dict.
    + rewrite draw_png_cases, Hs in Hx.
      by destruct (dict_get path (files (world st))).
  - intros Hfiles.
    by destruct (map_effect lib pm st Hc Hd Hlabels Hfiles) as (st' & -> & _).
Qed.

Lemma map_returns_iff_png_files_exist_witness :
  constructed Demo.st_AB ∧ is_dict [("A", "missing.png")] ∧
  (PanelMosaic.map Demo.lib [("A", "missing.png")] Demo.st_AB).1 ≠ Ok tt ∧
  ¬ (∀ label path, (label, path) ∈ [("A", "missing.png")] →
       endswith path ".png" = true →
       is_Some (dict_get path (files (world Demo.st_AB)))).
Proof.
  assert (constructed Demo.st_AB) as Hc by by_evaluation.
  assert (is_dict [("A", "missing.png")]) as Hd by by_evaluation.
  split; [exact Hc |]. split; [exact Hd |].
  assert ((PanelMosaic.map Demo.lib [("A", "missing.png")] Demo.st_AB).1 ≠ Ok tt)
    as Hne by done.
  split; [exact Hne |]. intros Hall. apply Hne.
  apply (map_returns_iff_png_files_exist Demo.lib [("A", "missing.png")]
           Demo.st_AB Hc Hd); [| exact Hall].
  intros label Hin. apply list_elem_of_singleton in Hin as ->. left.
Defined.

(** ** [map], twice *)

(** [map] is not idempotent: a second call with the same mapping draws
    every [.png] entry again, in a second inset beside the first, and
    connects a second placeholder for every [.svg] entry. *)
Theorem map_twice_stacks lib pm st :
  constructed st → is_dict pm →
  (∀ label, label ∈ keys pm → label ∈ keys (panels st)) →
  (∀ label path, (label, path) ∈ pm → endswith path ".png" = true →
     is_Some (dict_get path (files (world st)))) →
  ∃ st'', (PanelMosaic.map lib pm ;; PanelMosaic.map lib pm) st = (Ok tt, st'') ∧
    length (axes (world st'')) =
      length (axes (world st)) + 2 * length (by_suffix ".png" pm) ∧
    (∀ k label path ax a, by_suffix ".png" pm !! k = Some (label, path) →
       dict_get label (panels st) = Some ax → axes (world st) !! ax = Some a →
       ∃ a'', axes (world st'') !! ax = Some a'' ∧
         ax_child_axes a'' = ax_child_axes a ++
           [length (axes (world st)) + k;
            length (axes (world st)) + length (by_suffix ".png" pm) + k]) ∧
    (∀ label ax a, label ∈ keys (by_suffix ".svg" pm) →
       dict_get label (panels st) = Some ax → axes (world st) !! ax = Some a →
       ∃ a'', axes (world st'') !! ax = Some a'' ∧
         ax_artists a'' = ax_artists a ++ [label; label]).
Proof.
  intros Hc Hd Hlabels Hfiles.
  destruct (map_effect lib pm st Hc Hd Hlabels Hfiles)
    as (st' & E & Hself & Hc' & Hworld & Hlen & Hpng & Hsvg & _).
  assert (panels st' = panels st) as Hpanels.
  { unfold panels. by rewrite Hself. }
  assert (files (world st') = files (world st)) as Hf by (by rewrite Hworld).
  destruct (map_effect lib pm st' Hc' Hd)
    as (st'' & E' & _ & _ & _ & Hlen' & Hpng' & Hsvg' & _).
  { by rewrite Hpanels. }
  { by rewrite Hf. }
  exists st''. unfold bind. rewrite E, E'. split_and!; [done | lia | |].
  - intros k label path ax a Hk Hax Ha.
    destruct (Hpng k label path Hk) as (ax1 & _ & Hax1 & _ & Hc1 & _).
    destruct (Hpng' k label path Hk) as (ax2 & _ & Hax2 & _ & Hc2 & _).
    rewrite Hpanels in Hax2.
    assert (ax1 = ax) as -> by congruence. assert (ax2 = ax) as -> by congruence.
    rewrite Hc1, Ha in Hc2. cbn in Hc2. eexists. split; [exact Hc2 |].
    cbn. rewrite Hlen, <- app_assoc. done.
  - intros label ax a Hl Hax Ha.
    pose proof (Hsvg label ax Hl Hax) as H1.
    pose proof (Hsvg' label ax Hl) as H2. rewrite Hpanels in H2.
    rewrite (H2 Hax), H1, Ha. cbn. eexists. split; [done |].
    cbn. by rewrite <- app_assoc.
Qed.

Lemma map_twice_stacks_witness :
  constructed Demo.st_AB ∧ is_dict [("A", "a.png")] ∧
  ∃ st'', (PanelMosaic.map Demo.lib [("A", "a.png")] ;;
           PanelMosaic.map Demo.lib [("A", "a.png")]) Demo.st_AB = (Ok tt, st'') ∧
    length (axes (world st'')) = 4 ∧
    (ax_child_axes <$> axes (world st'')) = [[2; 3]; []; []; []].
Proof.
  assert (constructed Demo.st_AB) as Hc by by_evaluation.
  assert (is_dict [("A", "a.png")]) as Hd by by_evaluation.
  split; [exact Hc |]. split; [exact Hd |].
  destruct (map_twice_stacks Demo.lib [("A", "a.png")] Demo.st_AB Hc Hd)
    as (st'' & E & Hlen & _).
  - intros label Hin. apply list_elem_of_singleton in Hin as ->. left.
  - intros label path Hin _. apply list_elem_of_singleton in Hin as [= -> ->].
    by eexists.
  - exists st''. split; [exact E |]. split; [exact Hlen |].
    replace st'' with
      ((PanelMosaic.map Demo.lib [("A", "a.png")] ;;
        PanelMosaic.map Demo.lib [("A", "a.png")]) Demo.st_AB).2
      by (by rewrite E).
    reflexivity.
Defined.

(** ** What construction leaves, exactly *)

Lemma new_effect lib mosaic figsize layout st :
  PanelMosaic.new lib mosaic figsize layout None st =
  (Ok tt,
   let labels := remove_dups (plt_mosaic_labels lib mosaic) in
   let refs := seq (length (axes (world st))) (length labels) in
   let w1 :=
     {| interactive := true;
        figures := figures (world st) ++
          [{| fig_figsize := figsize; fig_layout := layout;
              fig_gridspec_kw := [("hspace", 0.0%float); ("wspace", 0.0%float)];
              fig_axes := refs |}];
        axes := axes (world st) ++ replicate (length labels) new_axes;
        files := files (world st) |} in
   {| self :=
        {| mosaic := Some mosaic; figsize := Some figsize; layout := Some layout;
           gridspec_kw := Some [("hspace", 0.0%float); ("wspace", 0.0%float)];
           fig := Some (length (figures (world st)));
           axs := Some (zip labels refs);
           panel_mapping := Some None;
           svg := Some (skunk_pltsvg lib w1 (length (figures (world st))));
           png_panel_mapping := None; svg_panel_mapping := None |};
      world := w1 |}).
Proof. reflexivity. Qed.

(** The axes [plt.subplot_mosaic] has just made, behind an older store. *)
Lemma fresh_axes_lookup (old : list Axes) (labels : list string) label ax :
  (label, ax) ∈ zip labels (seq (length old) (length labels)) →
  length old ≤ ax < length old + length labels ∧
  (old ++ replicate (length labels) new_axes) !! ax = Some new_axes.
Proof.
  intros Hin. apply elem_of_zip_r, elem_of_seq in Hin. split; [lia |].
  rewrite lookup_app_r by lia. apply lookup_replicate_2. lia.
Qed.

(** ** A second figure *)

(** [_set_up_axes] on an instance whose four layout attributes are
    assigned. *)
Lemma _set_up_axes_effect lib m fs l g st :
  mosaic (self st) = Some m → figsize (self st) = Some fs →
  layout (self st) = Some l → gridspec_kw (self st) = Some g →
  PanelMosaic._set_up_axes lib st =
  (Ok (length (figures (world st)),
       zip (remove_dups (plt_mosaic_labels lib m))
         (seq (length (axes (world st)))
            (length (remove_dups (plt_mosaic_labels lib m))))),
   {| self := self st;
      world :=
        {| interactive := true;
           figures := figures (world st) ++
             [{| fig_figsize := fs; fig_layout := l; fig_gridspec_kw := g;
                 fig_axes := seq (length (axes (world st)))
                   (length (remove_dups (plt_mosaic_labels lib m))) |}];
           axes := axes (world st) ++
             replicate (length (remove_dups (plt_mosaic_labels lib m))) new_axes;
           files := files (world st) |} |}).
Proof.
  intros Hm Hfs Hl Hg.
  unfold PanelMosaic._set_up_axes, bind, getattr, plt_ioff, modify_world. cbn.
  rewrite Hm. cbn. rewrite Hfs. cbn. rewrite Hl. cbn. by rewrite Hg.
Qed.

(** [_set_up_axes] called again on an initialised instance, as
    [show_dummies] does before it labels what it gets with
    [_label_axes(dummy_axs)]: a new figure with new axes, one per label of
    the mosaic and each with its label as only text. The instance and every
    axes that existed, its own panels included, are as they were, and
    pyplot is interactive afterwards whatever it was before. *)
Theorem second_figure_is_separate lib m fs l g st :
  mosaic (self st) = Some m → figsize (self st) = Some fs →
  layout (self st) = Some l → gridspec_kw (self st) = Some g →
  ∃ dummy_fig dummy_axs st',
    (dummy <- PanelMosaic._set_up_axes lib ;;
     _label_axes dummy.2 30 (0.0, 1.0)%float "left" "top" ;;
     ret dummy) st = (Ok (dummy_fig, dummy_axs), st') ∧
    self st' = self st ∧
    files (world st') = files (world st) ∧
    interactive (world st') = true ∧
    dummy_fig = length (figures (world st)) ∧
    length (figures (world st')) = S (length (figures (world st))) ∧
    keys dummy_axs = remove_dups (plt_mosaic_labels lib m) ∧
    (∀ i, i < length (axes (world st)) →
       axes (world st') !! i = axes (world st) !! i) ∧
    (∀ label ax, (label, ax) ∈ dummy_axs →
       length (axes (world st)) ≤ ax ∧
       axes (world st') !! ax =
         Some (labelled label 30 (0.0, 1.0)%float "left" "top" new_axes)).
Proof.
  intros Hm Hfs Hl Hg.
  set (labels := remove_dups (plt_mosaic_labels lib m)).
  set (refs := seq (length (axes (world st))) (length labels)).
  assert ((zip labels refs).*1 = labels) as E1.
  { apply fst_zip. unfold refs. by rewrite length_seq. }
  assert ((zip labels refs).*2 = refs) as E2.
  { apply snd_zip. unfold refs. by rewrite length_seq. }
  unfold bind. rewrite (_set_up_axes_effect lib m fs l g st) by done.
  fold labels refs. cbv beta iota. cbn [snd].
  match goal with |- context [_label_axes ?a ?f ?p ?h ?v ?s] =>
    destruct (_label_axes_effect a f p h v s)
      as (st' & E & Hself & Hworld & Hlen & Hin & Hout) end.
  { rewrite E2. apply NoDup_seq. }
  rewrite E. cbn. cbn in Hself, Hworld, Hlen, Hin, Hout.
  exists (length (figures (world st))), (zip labels refs), st'.
  split_and!; try done.
  - by rewrite Hworld.
  - by rewrite Hworld.
  - rewrite Hworld. cbn. rewrite length_app. cbn. lia.
  - intros i Hi. rewrite Hout.
    + by apply lookup_app_l.
    + rewrite E2. unfold refs. rewrite elem_of_seq. lia.
  - intros label ax Hin'.
    destruct (fresh_axes_lookup (axes (world st)) labels label ax Hin') as [Hax Hnew].
    split; [lia |]. by rewrite (Hin label ax Hin'), Hnew.
Qed.

Lemma second_figure_is_separate_witness :
  ∃ st',
    ((dummy <- PanelMosaic._set_up_axes Demo.lib ;;
      _label_axes dummy.2 30 (0.0, 1.0)%float "left" "top" ;;
      ret dummy) Demo.st_AB).2 = st' ∧
    self st' = self Demo.st_AB ∧
    length (figures (world st')) = 2 ∧
    axes (world st') !! 0 = axes (world Demo.st_AB) !! 0 ∧
    (text_s <$> ax_texts (default new_axes (axes (world st') !! 2))) = ["A"].
Proof.
  destruct (second_figure_is_separate Demo.lib (MosaicStr "AB") (10, 8)%float "tight"
              [("hspace", 0.0%float); ("wspace", 0.0%float)] Demo.st_AB
              eq_refl eq_refl eq_refl eq_refl)
    as (dummy_fig & dummy_axs & st' & E & Hself & _ & _ & _ & Hfigs & _ & Hold & _).
  exists st'. split; [by rewrite E |]. split; [exact Hself |].
  split; [exact Hfigs |]. split; [apply Hold; vm_compute; lia |].
  replace st' with
    ((dummy <- PanelMosaic._set_up_axes Demo.lib ;;
      _label_axes dummy.2 30 (0.0, 1.0)%float "left" "top" ;;
      ret dummy) Demo.st_AB).2 by (by rewrite E).
  reflexivity.
Defined.

(** ** The invariant, kept *)

Lemma constructed_frame (st st' : State) :
  constructed st →
  axs (self st') = axs (self st) → is_Some (svg (self st')) →
  length (axes (world st)) ≤ length (axes (world st')) →
  constructed st' ∧ panels st' = panels st.
Proof.
  intros Hc Ha Hs Hlen.
  destruct (constructed_panels st Hc) as (Haxs & _ & Hk & Hr & Hlt).
  split; [| by unfold panels; rewrite Ha].
  apply (constructed_intro _ (panels st)); try done; [by rewrite Ha |].
  intros label ax Hin. specialize (Hlt label ax Hin). lia.
Qed.

Lemma label_axes_effect fontsize label_pos ha va (a : dict nat) st :
  axs (self st) = Some a → NoDup a.*2 →
  ∃ st', PanelMosaic.label_axes fontsize label_pos ha va st = (Ok tt, st') ∧
    self st' = self st ∧
    world st' = set_axes (axes (world st')) (world st) ∧
    length (axes (world st')) = length (axes (world st)) ∧
    (∀ label ax, (label, ax) ∈ a →
       axes (world st') !! ax =
       labelled label fontsize label_pos ha va <$> axes (world st) !! ax) ∧
    (∀ i, i ∉ a.*2 → axes (world st') !! i = axes (world st) !! i).
Proof.
  intros Ha Hnd. unfold PanelMosaic.label_axes, bind, getattr. rewrite Ha.
  by apply _label_axes_effect.
Qed.

(** Both loops of [map] leave the store at least as long as it was,
    whatever they end in. *)
Lemma draw_loop_grows lib (l : dict string) s0 :
  length (axes (world s0)) ≤
  length (axes (world (for_ l (PanelMosaic.draw_png lib) s0).2)).
Proof.
  destruct (for_safe l (PanelMosaic.draw_png lib)
              (λ s, length (axes (world s0)) ≤ length (axes (world s)))
              (λ _, True) s0) as [HI _]; [done | done | | done].
  intros [label path] s _ Hlen. split; [| done]. rewrite draw_png_cases.
  destruct (dict_get path (files (world s))); [| done].
  destruct (axs (self s)) as [a|]; [| done].
  destruct (dict_get label a); [| done].
  cbn. rewrite length_app, length_alter. lia.
Qed.

Lemma connect_loop_grows (l : list string) s0 :
  length (axes (world s0)) ≤
  length (axes (world (for_ l PanelMosaic.connect_svg s0).2)).
Proof.
  destruct (for_safe l PanelMosaic.connect_svg
              (λ s, length (axes (world s0)) ≤ length (axes (world s)))
              (λ _, True) s0) as [HI _]; [done | done | | done].
  intros label s _ Hlen. split; [| done]. rewrite connect_svg_cases.
  destruct (axs (self s)) as [a|]; [| done].
  destruct (dict_get label a); [| done].
  cbn. by rewrite length_alter.
Qed.

Lemma map_frame lib pm st :
  axs (self (PanelMosaic.map lib pm st).2) = axs (self st) ∧
  (is_Some (svg (self st)) → is_Some (svg (self (PanelMosaic.map lib pm st).2))) ∧
  length (axes (world st)) ≤ length (axes (world (PanelMosaic.map lib pm st).2)).
Proof.
  rewrite map_unfold.
  set (s1 := {| self := set_png_panel_mapping (by_suffix ".png" pm)
                         (set_panel_mapping (Some pm) (self st));
                world := world st |}).
  pose proof (draw_loop_self lib (by_suffix ".png" pm) s1) as Hself2.
  pose proof (draw_loop_grows lib (by_suffix ".png" pm) s1) as Hlen2.
  destruct (for_ _ _ s1) as [[[]|e] s2]; cbn in Hself2, Hlen2.
  2: { cbn. by rewrite Hself2. }
  set (s3 := {| self := set_svg_panel_mapping (by_suffix ".svg" pm) (self s2);
                world := world s2 |}).
  pose proof (connect_loop_self (keys (by_suffix ".svg" pm)) s3) as Hself4.
  pose proof (connect_loop_grows (keys (by_suffix ".svg" pm)) s3) as Hlen4.
  destruct (for_ _ _ s3) as [[[]|e] s4]; cbn in Hself4, Hlen4; cbn.
  - rewrite Hself4, Hself2. cbn. split_and!; [done | by eexists | lia].
  - rewrite Hself4, Hself2. cbn. split_and!; [done | done | lia].
Qed.

Lemma write_frame lib out_path formats st :
  self (PanelMosaic.write lib out_path formats st).2 = self st ∧
  axes (world (PanelMosaic.write lib out_path formats st).2) = axes (world st).
Proof.
  unfold PanelMosaic.write, PanelMosaic.write_svg, PanelMosaic.write_pdf, bind,
    getattr, lift, add_str, open_w, file_write, svg2pdf, modify_world, ret.
  destruct (py_in "svg" formats), (py_in "pdf" formats), out_path; cbn;
    destruct (svg (self st)) eqn:E; cbn; rewrite ?E; by cbn.
Qed.

(** A constructed instance stays constructed, with the same panels,
    through [label_axes], [format_axes], [map] and [write], whatever they
    are passed and whether they return or raise. *)
Theorem methods_keep_constructed st :
  constructed st →
  (∀ fontsize label_pos ha va,
     constructed (PanelMosaic.label_axes fontsize label_pos ha va st).2 ∧
     panels (PanelMosaic.label_axes fontsize label_pos ha va st).2 = panels st) ∧
  (∀ panel_borders,
     constructed (PanelMosaic.format_axes panel_borders st).2 ∧
     panels (PanelMosaic.format_axes panel_borders st).2 = panels st) ∧
  (∀ lib pm,
     constructed (PanelMosaic.map lib pm st).2 ∧
     panels (PanelMosaic.map lib pm st).2 = panels st) ∧
  (∀ lib out_path formats,
     constructed (PanelMosaic.write lib out_path formats st).2 ∧
     panels (PanelMosaic.write lib out_path formats st).2 = panels st).
Proof.
  intros Hc. destruct (constructed_panels st Hc) as (Haxs & Hsvg & _ & Hr & _).
  split_and!.
  - intros fontsize label_pos ha va.
    destruct (label_axes_effect fontsize label_pos ha va (panels st) st Haxs Hr)
      as (st' & -> & Hself & _ & Hlen & _). cbn.
    apply (constructed_frame st); [done | by rewrite Hself | by rewrite Hself | lia].
  - intros panel_borders.
    destruct (format_axes_effect panel_borders (panels st) st Haxs Hr)
      as (st' & -> & Hself & _ & Hlen & _). cbn.
    apply (constructed_frame st); [done | by rewrite Hself | by rewrite Hself | lia].
  - intros lib pm. destruct (map_frame lib pm st) as (Ha & Hs & Hlen).
    apply (constructed_frame st); [done | done | by apply Hs | done].
  - intros lib out_path formats.
    destruct (write_frame lib out_path formats st) as [Hself Hax].
    apply (constructed_frame st); [done | by rewrite Hself | by rewrite Hself |].
    by rewrite Hax.
Qed.

Lemma methods_keep_constructed_witness :
  constructed Demo.st_AB ∧
  constructed (PanelMosaic.map Demo.lib [("Z", "a.png")] Demo.st_AB).2 ∧
  (PanelMosaic.map Demo.lib [("Z", "a.png")] Demo.st_AB).1 = Raise (KeyError "Z").
Proof.
  assert (constructed Demo.st_AB) as Hc by by_evaluation.
  split; [exact Hc |]. split; [| reflexivity].
  destruct (methods_keep_constructed Demo.st_AB Hc) as (_ & _ & Hmap & _).
  exact (proj1 (Hmap Demo.lib [("Z", "a.png")])).
Defined.

(** ** [self.svg] between the calls *)



(** ** [panel_mosaic], end to end *)

(** For a dict whose labels are labels of the mosaic and whose [.png] paths
    name existing files, [panel_mosaic] returns the instance it built. The
    instance has one panel per label of the mosaic; each panel's axes
    carries the panel's label as its only text, at [label_pos] in axes
    coordinates, aligned left and top, has no ticks, has its axis on
    exactly when [panel_borders] is set, holds one inset with the decoded
    image when the mapping gives it a [.png] and none otherwise, and one
    placeholder when the mapping gives it an [.svg] and none otherwise.
    [self.svg] is what [skunk.insert] makes of the [.svg] entries in that
    final world; one figure was added, no file was touched and pyplot is
    interactive. *)
Theorem panel_mosaic_builds_the_figure lib mosaic pm figsize fontsize
    panel_borders layout label_pos st :
  is_dict pm →
  (∀ label, label ∈ keys pm → label ∈ plt_mosaic_labels lib mosaic) →
  (∀ label path, (label, path) ∈ pm → endswith path ".png" = true →
     is_Some (dict_get path (files (world st)))) →
  ∃ st',
    panel_mosaic lib mosaic pm figsize fontsize panel_borders layout label_pos st =
      (Ok (VPanelMosaic (self st')), st') ∧
    constructed st' ∧
    keys (panels st') = remove_dups (plt_mosaic_labels lib mosaic) ∧
    panel_mapping (self st') = Some (Some pm) ∧
    svg (self st') = Some (skunk_insert lib (by_suffix ".svg" pm) (world st')) ∧
    files (world st') = files (world st) ∧
    interactive (world st') = true ∧
    length (figures (world st')) = S (length (figures (world st))) ∧
    length (axes (world st')) =
      length (axes (world st)) + length (panels st') +
      length (by_suffix ".png" pm) ∧
    ∀ label ax, (label, ax) ∈ panels st' →
      ∃ a', axes (world st') !! ax = Some a' ∧
        ax_texts a' =
          [{| text_x := label_pos.1; text_y := label_pos.2; text_s := label;
              text_horizontalalignment := "left";
              text_verticalalignment := "top";
              text_transform := transAxes; text_fontsize := fontsize;
              text_clip_on := false |}] ∧
        ax_autoscale_on a' = false ∧
        ax_xticks a' = Some [] ∧ ax_yticks a' = Some [] ∧
        ax_axison a' = panel_borders ∧ ax_images a' = [] ∧
        (∀ k path, by_suffix ".png" pm !! k = Some (label, path) →
           ax_child_axes a' =
             [length (axes (world st)) + length (panels st') + k] ∧
           ∃ data, dict_get path (files (world st)) = Some data ∧
             axes (world st') !!
               (length (axes (world st)) + length (panels st') + k) =
             Some (png_inset (plt_imread lib data))) ∧
        (label ∉ keys (by_suffix ".png" pm) → ax_child_axes a' = []) ∧
        (label ∈ keys (by_suffix ".svg" pm) → ax_artists a' = [label]) ∧
        (label ∉ keys (by_suffix ".svg" pm) → ax_artists a' = []).
Proof.
  intros Hd Hlabels Hfiles.
  set (labels := remove_dups (plt_mosaic_labels lib mosaic)).
  set (n0 := length (axes (world st))).
  set (refs := seq n0 (length labels)).
  assert ((zip labels refs).*1 = labels) as Ekeys.
  { apply fst_zip. unfold refs. by rewrite length_seq. }
  assert ((zip labels refs).*2 = refs) as Erefs.
  { apply snd_zip. unfold refs. by rewrite length_seq. }
  assert (length (zip labels refs) = length labels) as Elen.
  { transitivity (length (zip labels refs).*1);
      [by rewrite length_fmap | by rewrite Ekeys]. }
  (* construction *)
  destruct (new_default lib mosaic figsize layout st) as (st1 & E1 & _ & _ & Hc1).
  pose proof (new_effect lib mosaic figsize layout st) as E1'.
  rewrite E1 in E1'. injection E1' as Hst1.
  fold labels n0 refs in Hst1.
  assert (panels st1 = zip labels refs) as Hp1 by (by rewrite Hst1).
  assert (axs (self st1) = Some (zip labels refs)) as Ha1 by (by rewrite Hst1).
  assert (∀ label ax, (label, ax) ∈ zip labels refs →
            axes (world st1) !! ax = Some new_axes) as Hnew.
  { intros label ax Hin. rewrite Hst1. cbn.
    by destruct (fresh_axes_lookup (axes (world st)) labels label ax Hin). }
  assert (NoDup (zip labels refs).*2) as Hr.
  { rewrite Erefs. apply NoDup_seq. }
  (* labels, borders *)
  destruct (label_axes_effect fontsize label_pos "left" "top" (zip labels refs) st1
              Ha1 Hr) as (st2 & E2 & Hself2 & Hworld2 & Hlen2 & Hin2 & _).
  destruct (format_axes_effect panel_borders (zip labels refs) st2)
    as (st3 & E3 & Hself3 & Hworld3 & Hlen3 & Hin3 & _);
    [by rewrite Hself2 | done |].
  assert (self st3 = self st1) as Hself31 by (by rewrite Hself3, Hself2).
  assert (world st3 = set_axes (axes (world st3)) (world st1)) as Hworld31.
  { rewrite Hworld3, Hworld2. reflexivity. }
  assert (length (axes (world st3)) = n0 + length labels) as Hlen31.
  { rewrite Hlen3, Hlen2, Hst1. cbn. by rewrite length_app, length_replicate. }
  destruct (constructed_frame st1 st3 Hc1) as [Hc3 Hp3].
  { by rewrite Hself31. }
  { rewrite Hself31, Hst1. by eexists. }
  { lia. }
  rewrite Hp1 in Hp3.
  (* images *)
  assert (files (world st3) = files (world st)) as Hf3.
  { rewrite Hworld31, Hst1. reflexivity. }
  assert (∀ label, label ∈ keys pm → label ∈ keys (panels st3)) as Hlabels3.
  { intros label Hin. rewrite Hp3. unfold keys. rewrite Ekeys.
    apply elem_of_remove_dups. by apply Hlabels. }
  assert (∀ label path, (label, path) ∈ pm → endswith path ".png" = true →
            is_Some (dict_get path (files (world st3)))) as Hfiles3.
  { intros label path Hin E. rewrite Hf3. by apply (Hfiles label). }
  destruct (map_effect lib pm st3 Hc3 Hd Hlabels3 Hfiles3)
    as (st4 & E4 & Hself4 & Hc4 & Hworld4 & Hlen4 & Hpng4 & _).
  destruct (map_panel_effect lib pm st3 Hc3 Hd Hlabels3 Hfiles3)
    as (st4' & E4' & _ & _ & Hpanel4).
  rewrite E4 in E4'. injection E4' as <-.
  assert (panels st4 = zip labels refs) as Hp4.
  { unfold panels. rewrite Hself4. cbn. by rewrite Hself31, Ha1. }
  exists st4. split_and!.
  - unfold panel_mosaic, bind, get_self, ret. by rewrite E1, E2, E3, E4.
  - done.
  - by rewrite Hp4.
  - by rewrite Hself4.
  - by rewrite Hself4.
  - by rewrite Hworld4.
  - rewrite Hworld4, Hworld31, Hst1. reflexivity.
  - rewrite Hworld4, Hworld31, Hst1. cbn. rewrite length_app. cbn. lia.
  - rewrite Hp4, Elen. lia.
  - rewrite Hp4, Elen. intros label ax Hin.
    rewrite <- Hp3 in Hin.
    destruct (Hpanel4 label ax Hin)
      as (a3 & a4 & Ha3 & Ha4 & Ht & Has & Hx & Hy & Hon & Him & _ & _ &
          Hchild & Hnochild & Hart & Hnoart).
    rewrite Hp3 in Hin.
    rewrite (Hin3 label ax Hin), (Hin2 label ax Hin), (Hnew label ax Hin) in Ha3.
    cbn in Ha3. injection Ha3 as <-.
    exists a4.
    destruct panel_borders;
      cbn in Ht, Has, Hx, Hy, Hon, Him, Hchild, Hnochild, Hart, Hnoart.
    all: split_and!; try done.
    all: intros k path Hk; split; [by rewrite (Hchild k path Hk), Hlen31 |].
    all: destruct (Hpng4 k label path Hk) as (ax' & data & _ & Hdata & _ & Hinset).
    all: exists data; rewrite <- Hf3, <- Hlen31; by split.
Qed.

Lemma panel_mosaic_builds_the_figure_witness :
  is_dict [("A", "a.png"); ("B", "b.svg")] ∧
  ∃ st',
    panel_mosaic Demo.lib (MosaicStr "AB") [("A", "a.png"); ("B", "b.svg")]
      (10, 8)%float 30 false "tight" (0, 1)%float
      {| self := blank; world := Demo.w0 |} = (Ok (VPanelMosaic (self st')), st') ∧
    svg (self st') = Some "<svg>B</svg>" ∧
    length (axes (world st')) = 3.
Proof.
  assert (is_dict [("A", "a.png"); ("B", "b.svg")]) as Hd by by_evaluation.
  split; [exact Hd |].
  destruct (panel_mosaic_builds_the_figure Demo.lib (MosaicStr "AB")
              [("A", "a.png"); ("B", "b.svg")] (10, 8)%float 30 false "tight"
              (0, 1)%float {| self := blank; world := Demo.w0 |} Hd)
    as (st' & E & _).
  - intros label Hin. vm_compute in Hin. vm_compute.
    apply elem_of_cons in Hin as [->|Hin]; [left |].
    apply elem_of_cons in Hin as [->|Hin]; [right; left |].
    by apply elem_of_nil in Hin.
  - intros label path Hin Epng.
    apply elem_of_cons in Hin as [[= -> ->]|Hin]; [by eexists |].
    apply elem_of_cons in Hin as [[= -> ->]|Hin]; [discriminate Epng |].
    by apply elem_of_nil in Hin.
  - exists st'. split; [exact E |].
    replace st' with
      (panel_mosaic Demo.lib (MosaicStr "AB") [("A", "a.png"); ("B", "b.svg")]
         (10, 8)%float 30 false "tight" (0, 1)%float
         {| self := blank; world := Demo.w0 |}).2 by (by rewrite E).
    split; reflexivity.
Defined.

(** ** Calling twice *)

(** [label_axes] adds to what is there: a second call leaves two texts on
    every panel's axes, the first call's and then its own. *)
Theorem label_axes_accumulates fontsize1 label_pos1 ha1 va1
    fontsize2 label_pos2 ha2 va2 st :
  constructed st →
  ∃ st', (PanelMosaic.label_axes fontsize1 label_pos1 ha1 va1 ;;
          PanelMosaic.label_axes fontsize2 label_pos2 ha2 va2) st = (Ok tt, st') ∧
    ∀ label ax, (label, ax) ∈ panels st →
      ∃ a a', axes (world st) !! ax = Some a ∧ axes (world st') !! ax = Some a' ∧
        ax_texts a' = ax_texts a ++
          [{| text_x := label_pos1.1; text_y := label_pos1.2; text_s := label;
              text_horizontalalignment := ha1; text_verticalalignment := va1;
              text_transform := transAxes; text_fontsize := fontsize1;
              text_clip_on := false |};
           {| text_x := label_pos2.1; text_y := label_pos2.2; text_s := label;
              text_horizontalalignment := ha2; text_verticalalignment := va2;
              text_transform := transAxes; text_fontsize := fontsize2;
              text_clip_on := false |}].
Proof.
  intros Hc. destruct (constructed_panels st Hc) as (Haxs & _ & _ & Hr & Hlt).
  destruct (label_axes_effect fontsize1 label_pos1 ha1 va1 (panels st) st Haxs Hr)
    as (st1 & E1 & Hself1 & _ & _ & Hin1 & _).
  destruct (label_axes_effect fontsize2 label_pos2 ha2 va2 (panels st) st1)
    as (st2 & E2 & _ & _ & _ & Hin2 & _); [by rewrite Hself1 | done |].
  exists st2. unfold bind. rewrite E1, E2. split; [done |].
  intros label ax Hin.
  destruct (lookup_lt_is_Some_2 (axes (world st)) ax) as [a Ha]; [by apply (Hlt label) |].
  exists a. eexists. split; [done |].
  rewrite (Hin2 label ax Hin), (Hin1 label ax Hin), Ha. cbn.
  split; [reflexivity |]. cbn. by rewrite <- app_assoc.
Qed.

Lemma label_axes_accumulates_witness :
  constructed Demo.st_AB ∧
  ∃ st', (PanelMosaic.label_axes 30 (0, 1)%float "left" "top" ;;
          PanelMosaic.label_axes 12 (1, 0)%float "right" "bottom") Demo.st_AB
         = (Ok tt, st') ∧
    (length ∘ ax_texts <$> axes (world st')) = [2; 2].
Proof.
  assert (constructed Demo.st_AB) as Hc by by_evaluation.
  split; [exact Hc |].
  destruct (label_axes_accumulates 30 (0, 1)%float "left" "top"
              12 (1, 0)%float "right" "bottom" Demo.st_AB Hc) as (st' & E & _).
  exists st'. split; [exact E |].
  replace st' with
    ((PanelMosaic.label_axes 30 (0, 1)%float "left" "top" ;;
      PanelMosaic.label_axes 12 (1, 0)%float "right" "bottom") Demo.st_AB).2
    by (by rewrite E).
  reflexivity.
Defined.

(** [format_axes] is idempotent: a second call with the same argument
    leaves the state the first call left. *)
Theorem format_axes_idempotent panel_borders st :
  constructed st →
  (PanelMosaic.format_axes panel_borders ;;
   PanelMosaic.format_axes panel_borders) st =
  PanelMosaic.format_axes panel_borders st.
Proof.
  intros Hc. destruct (constructed_panels st Hc) as (Haxs & _ & _ & Hr & _).
  destruct (format_axes_effect panel_borders (panels st) st Haxs Hr)
    as (st1 & E1 & Hself1 & Hworld1 & Hlen1 & Hin1 & Hout1).
  destruct (format_axes_effect panel_borders (panels st) st1)
    as (st2 & E2 & Hself2 & Hworld2 & Hlen2 & Hin2 & Hout2);
    [by rewrite Hself1 | done |].
  unfold bind. rewrite E1, E2. f_equal.
  assert (axes (world st2) = axes (world st1)) as Hax.
  { apply list_eq. intros i.
    destruct (decide (i ∈ (panels st).*2)) as [Hi|Hi].
    - apply list_elem_of_fmap_1 in Hi as ([label ax] & -> & Hin). cbn [snd].
      rewrite (Hin2 label ax Hin), (Hin1 label ax Hin). cbn.
      destruct (axes (world st) !! ax); [| done]. cbn. by destruct panel_borders.
    - by apply Hout2. }
  destruct st2 as [o2 w2], st1 as [o1 w1]. cbn in *. subst o2.
  f_equal. rewrite Hworld2, Hax. by destruct w1.
Qed.

Lemma format_axes_idempotent_witness :
  constructed Demo.st_AB ∧
  (PanelMosaic.format_axes false ;; PanelMosaic.format_axes false) Demo.st_AB =
  PanelMosaic.format_axes false Demo.st_AB.
Proof.
  assert (constructed Demo.st_AB) as Hc by by_evaluation.
  split; [exact Hc |]. exact (format_axes_idempotent false Demo.st_AB Hc).
Defined.
